(** * HR Smart Recruiter RAG: query routing, ingestion and text helpers

    A shallow embedding of the decision logic of the recruiter assistant
    (utils/helpers.py, src/config.py, src/embeddings.py,
    src/document_processor.py, src/vectorstore.py, src/rag_engine.py) and
    the properties its specification states about it.

    Conventions.
    - A Python [str] is the list of its Unicode code points ([N]).
    - Calls to collaborators that live outside the repository (the FAISS
      index, the chat model, the PDF and DOCX readers, the sentence
      embedding model, [print]) are recorded in a trace of [event]s, and
      what they answer is given by oracles passed to the code.
    - A computation of the program yields its trace together with either a
      value or a raised [Exception] (carrying [str(e)]). *)

From Stdlib Require Import String Ascii NArith ZArith Decimal DecimalNat.
From stdpp Require Import gmap list.

Set Default Proof Using "Type".

(** ** Python built-ins used by the program *)

Module Py.

Definition char := N.
Abbreviation str := (list N).

(** A string literal of the source (ASCII only) as a [str]. *)
Definition lit (s : string) : str :=
  map N_of_ascii (list_ascii_of_string s).

Definition NL : str := [10%N].

(** [str.isspace] for one character: the code points CPython's
    [_PyUnicode_IsWhitespace] accepts. *)
Definition isspace (c : char) : bool :=
  ((9 <=? c) && (c <=? 13) || (28 <=? c) && (c <=? 32)
   || (c =? 133) || (c =? 160) || (c =? 5760)
   || (8192 <=? c) && (c <=? 8202)
   || (c =? 8232) || (c =? 8233) || (c =? 8239) || (c =? 8287)
   || (c =? 12288))%N.

(** [text.split()]: maximal runs of non-whitespace characters. [acc] is
    the run being read. *)
Fixpoint split_from (acc : str) (s : str) : list str :=
  match s with
  | [] => match acc with [] => [] | _ => [acc] end
  | c :: s' =>
      if isspace c
      then match acc with
           | [] => split_from [] s'
           | _ => acc :: split_from [] s'
           end
      else split_from (acc ++ [c]) s'
  end.

Definition split (s : str) : list str := split_from [] s.

(** [sep.join(parts)] *)
Fixpoint join (sep : str) (parts : list str) : str :=
  match parts with
  | [] => []
  | [p] => p
  | p :: rest => p ++ sep ++ join sep rest
  end.

Fixpoint lstrip (s : str) : str :=
  match s with
  | [] => []
  | c :: s' => if isspace c then lstrip s' else s
  end.

Definition rstrip (s : str) : str := reverse (lstrip (reverse s)).

(** [s.strip()] *)
Definition strip (s : str) : str := rstrip (lstrip s).

Fixpoint startswith (p s : str) : bool :=
  match p, s with
  | [], _ => true
  | _ :: _, [] => false
  | a :: p', b :: s' => (a =? b)%N && startswith p' s'
  end.

(** [needle in hay] on strings: substring containment. *)
Fixpoint contains (needle hay : str) : bool :=
  startswith needle hay ||
  match hay with
  | [] => false
  | _ :: hay' => contains needle hay'
  end.

(** [s.replace(old, new)] for a non-empty [old]: left to right,
    non-overlapping. [skip] counts the characters of a matched [old]
    still to be dropped. *)
Fixpoint replace_from (old new : str) (skip : nat) (s : str) : str :=
  match s with
  | [] => []
  | c :: s' =>
      match skip with
      | S n => replace_from old new n s'
      | O =>
          if startswith old s
          then new ++ replace_from old new (length old - 1) s'
          else c :: replace_from old new 0 s'
      end
  end.

(** With an empty [old], Python puts [new] before every character and
    at the end. *)
Fixpoint intersperse_all (new s : str) : str :=
  match s with
  | [] => new
  | c :: s' => new ++ c :: intersperse_all new s'
  end.

Definition replace (old new s : str) : str :=
  match old with
  | [] => intersperse_all new s
  | _ => replace_from old new 0 s
  end.

Fixpoint uint_digits (d : Decimal.uint) : str :=
  match d with
  | Decimal.Nil => []
  | Decimal.D0 d => 48%N :: uint_digits d
  | Decimal.D1 d => 49%N :: uint_digits d
  | Decimal.D2 d => 50%N :: uint_digits d
  | Decimal.D3 d => 51%N :: uint_digits d
  | Decimal.D4 d => 52%N :: uint_digits d
  | Decimal.D5 d => 53%N :: uint_digits d
  | Decimal.D6 d => 54%N :: uint_digits d
  | Decimal.D7 d => 55%N :: uint_digits d
  | Decimal.D8 d => 56%N :: uint_digits d
  | Decimal.D9 d => 57%N :: uint_digits d
  end.

(** [str(n)] for a non-negative integer, as an f-string prints it. *)
Definition str_of_nat (n : nat) : str := uint_digits (Nat.to_uint n).

(** [l[:k]] for a Python integer [k]. *)
Definition slice_to {A} (k : Z) (l : list A) : list A :=
  if (0 <=? k)%Z then take (Z.to_nat k) l
  else take (length l - Z.to_nat (- k)) l.

(** What the platform provides and the repository does not define:
    [str.lower] (the Unicode case tables) and [os.path.splitext]. *)
Class Platform := {
    lower : str -> str;
    os_path_splitext : str -> str * str
  }.

(** The restriction of [str.lower] to ASCII letters. *)
Definition ascii_lower_char (c : char) : char :=
  if ((65 <=? c) && (c <=? 90))%N then (c + 32)%N else c.

(** [posixpath.splitext] for a name without directory separators:
    the extension starts at the last dot, unless only dots precede it. *)
Fixpoint all_dots (s : str) : bool :=
  match s with
  | [] => true
  | c :: s' => (c =? 46)%N && all_dots s'
  end.

Fixpoint last_dot_split (s : str) : option (str * str) :=
  match s with
  | [] => None
  | c :: s' =>
      match last_dot_split s' with
      | Some (root, ext) => Some (c :: root, ext)
      | None => if (c =? 46)%N then Some ([], s) else None
      end
  end.

Definition simple_splitext (s : str) : str * str :=
  match last_dot_split s with
  | Some (root, ext) => if all_dots root then (s, []) else (root, ext)
  | None => (s, [])
  end.

(** A platform that agrees with CPython on ASCII text and on file names
    without separators. *)
Definition ascii_platform : Platform :=
  {| lower := map ascii_lower_char; os_path_splitext := simple_splitext |}.

End Py.

Import Py.

(** A Python [dict] whose iteration order the program observes: the items
    in insertion order; assigning to a present key keeps its position. *)
Module Dict.

Section WithTypes.
Context {K V : Type} `{EqDecision K}.

Fixpoint set (k : K) (v : V) (d : list (K * V)) : list (K * V) :=
  match d with
  | [] => [(k, v)]
  | (k', v') :: d' =>
      if decide (k = k') then (k', v) :: d' else (k', v') :: set k v d'
  end.

Fixpoint get (k : K) (d : list (K * V)) : option V :=
  match d with
  | [] => None
  | (k', v') :: d' => if decide (k = k') then Some v' else get k d'
  end.

Definition keys (d : list (K * V)) : list K := map fst d.
End WithTypes.

End Dict.

(** ** Outcomes, traces and computations *)

(** [langchain.schema.Document]: text and a metadata dictionary. *)
Record Document := {
  page_content : str;
  metadata : gmap str str
}.

#[global] Instance Document_eq_dec : EqDecision Document.
Proof. solve_decision. Defined.

(** A file handed over by the upload widget. *)
Record UploadedFile := {
  name : str;
  type : str;
  payload : list N
}.

(** A value, or a raised [Exception] with its [str(e)]. Only what
    [except Exception] catches is modelled: interrupts and exits, which
    derive from [BaseException] alone, are outside the model. *)
Inductive outcome (A : Type) : Type :=
| Ret (a : A)
| Raise (msg : str).
Arguments Ret {A} a.
Arguments Raise {A} msg.

(** Calls that leave the repository. *)
Inductive event : Type :=
| Print (msg : str)
| SimilaritySearchWithScore (query : str) (k : Z)
| GetRelevantDocuments (query : str) (k : Z)
| LlmInvoke (prompt : str)
| FaissFromDocuments (documents : list Document)
| ReadPdf (file : UploadedFile)
| ReadDocx (file : UploadedFile)
| SuperEmbedDocuments (texts : list str)
| SuperEmbedQuery (text : str).

Definition Comp (A : Type) : Type := list event * outcome A.

Definition trace {A} (c : Comp A) : list event := fst c.
Definition result_of {A} (c : Comp A) : outcome A := snd c.

#[global] Instance Comp_ret : MRet Comp := fun A a => ([], Ret a).

#[global] Instance Comp_bind : MBind Comp := fun A B f c =>
  match c with
  | (t, Ret a) => let '(t', o) := f a in (t ++ t', o)
  | (t, Raise msg) => (t, Raise msg)
  end.

Definition raise {A} (msg : str) : Comp A := ([], Raise msg).

(** [try: body except Exception as e: handler(str(e))] *)
Definition try_except {A} (body : Comp A) (handler : str -> Comp A) : Comp A :=
  match body with
  | (t, Ret a) => (t, Ret a)
  | (t, Raise msg) => let '(t', o) := handler msg in (t ++ t', o)
  end.

(** One call to a collaborator: the call is logged, the oracle answers. *)
Definition call {A} (e : event) (answer : outcome A) : Comp A := ([e], answer).

Definition print (msg : str) : Comp unit := call (Print msg) (Ret tt).

(** ** src/config.py *)

Module Config.
Definition RETRIEVAL_K : Z := 20.
Definition SPECIFIC_RETRIEVAL_K : Z := 5.
Definition MAX_SIMILARITY_DOCS : Z := 100.
Definition COUNT_KEYWORDS : list str :=
  [lit "how many"; lit "count"; lit "number of"; lit "total"; lit "how much"].
Definition CV_KEYWORDS : list str :=
  [lit "cv"; lit "cvs"; lit "resume"; lit "resumes"; lit "applicant";
   lit "applicants"; lit "candidate"; lit "candidates"].
End Config.

(** ** utils/helpers.py *)

Section Helpers.
Context `{Platform}.

Definition extract_person_name (filename : str) : str :=
  let '(name, _) := os_path_splitext filename in
  strip name.

Fixpoint first_name_in (query_lower : str) (applicant_names : list str)
  : option str :=
  match applicant_names with
  | [] => None
  | name :: rest =>
      if contains (lower name) query_lower then Some name
      else first_name_in query_lower rest
  end.

Definition is_applicant_specific (query : str) (applicant_names : list str)
  : option str :=
  let query_lower := lower query in
  first_name_in query_lower applicant_names.

Definition is_count_query (query : str) : bool :=
  let query_lower := lower query in
  let has_count_keyword :=
    existsb (fun keyword => contains keyword query_lower)
            Config.COUNT_KEYWORDS in
  let has_cv_keyword :=
    existsb (fun keyword => contains keyword query_lower)
            Config.CV_KEYWORDS in
  has_count_keyword && has_cv_keyword.

End Helpers.

Definition clean_text (text : str) : str :=
  match text with
  | [] => []
  | _ =>
      let text := join (lit " ") (split text) in
      let text := replace [0%N] [] text in
      let text := replace [65533%N] [] text in
      strip text
  end.

(** ** src/embeddings.py *)

(** The parent class [HuggingFaceEmbeddings]: the sentence-embedding model
    behind the adapter. [Vector] is the model's vector type. *)
Record HuggingFaceEmbeddings (Vector : Type) := {
  hf_embed_documents : list str -> outcome (list Vector);
  hf_embed_query : str -> outcome Vector
}.
Arguments hf_embed_documents {Vector} _ _.
Arguments hf_embed_query {Vector} _ _.

Module E5Embeddings.
Section WithModel.
Context {Vector : Type} (super : HuggingFaceEmbeddings Vector).

Definition embed_documents (texts : list str) : Comp (list Vector) :=
  let prefixed_texts := map (fun text => lit "passage: " ++ text) texts in
  call (SuperEmbedDocuments prefixed_texts)
       (hf_embed_documents super prefixed_texts).

Definition embed_query (text : str) : Comp Vector :=
  call (SuperEmbedQuery (lit "query: " ++ text))
       (hf_embed_query super (lit "query: " ++ text)).
End WithModel.
End E5Embeddings.

(** ** src/document_processor.py *)

(** What PyPDF2 and python-docx find in a file: the text of each page
    ([None] for a page without extractable text) or of each paragraph, or
    the exception they raise. *)
Record Readers := {
  pdf_pages : UploadedFile -> outcome (list (option str));
  docx_paragraphs : UploadedFile -> outcome (list str)
}.

Definition PDF_MIME : str := lit "application/pdf".
Definition DOCX_MIME : str :=
  lit "application/vnd.openxmlformats-officedocument.wordprocessingml.document".

Module DocumentProcessor.
Section WithReaders.
Context `{Platform} (readers : Readers).

Definition extract_text_from_pdf (file : UploadedFile) : Comp str :=
  try_except
    (pages ← call (ReadPdf file) (pdf_pages readers file);
     let text := join NL (map (fun page => default [] page) pages) in
     mret text)
    (fun e => raise (lit "Error reading PDF file: " ++ e)).

Definition extract_text_from_docx (file : UploadedFile) : Comp str :=
  try_except
    (paragraphs ← call (ReadDocx file) (docx_paragraphs readers file);
     let text := join NL paragraphs in
     mret text)
    (fun e => raise (lit "Error reading DOCX file: " ++ e)).

(** The body of the [for] loop, from the state of [applicant_cvs]
    before a file to its state after it. *)
Definition extract_one (uploaded_file : UploadedFile)
    (applicant_cvs : list (str * str)) : Comp (list (str * str)) :=
  let applicant_name := extract_person_name (name uploaded_file) in
  try_except
    (if decide (type uploaded_file = PDF_MIME) then
       text ← extract_text_from_pdf uploaded_file;
       mret (Dict.set applicant_name text applicant_cvs)
     else if decide (type uploaded_file = DOCX_MIME) then
       text ← extract_text_from_docx uploaded_file;
       mret (Dict.set applicant_name text applicant_cvs)
     else mret applicant_cvs)
    (fun e =>
       _ ← print (lit "Warning: Could not process file "
                  ++ name uploaded_file ++ lit ": " ++ e);
       mret applicant_cvs).

Fixpoint extract_loop (uploaded_files : list UploadedFile)
    (applicant_cvs : list (str * str)) : Comp (list (str * str)) :=
  match uploaded_files with
  | [] => mret applicant_cvs
  | uploaded_file :: rest =>
      applicant_cvs ← extract_one uploaded_file applicant_cvs;
      extract_loop rest applicant_cvs
  end.

Definition extract_text_from_files (uploaded_files : list UploadedFile)
  : Comp (list (str * str)) :=
  extract_loop uploaded_files [].
End WithReaders.
End DocumentProcessor.

(** ** src/vectorstore.py *)

(** A FAISS store as the program uses it: the two search entry points.
    [Score] is the type of similarity scores. *)
Record FAISS (Score : Type) := {
  similarity_search_with_score :
    str -> Z -> outcome (list (Document * Score));
  get_relevant_documents : str -> Z -> outcome (list Document)
}.
Arguments similarity_search_with_score {Score} _ _ _.
Arguments get_relevant_documents {Score} _ _ _.

(** The fields of a [VectorStoreManager]: the text splitter (the chunks it
    cuts a text into) and the index builder [FAISS.from_documents] bound to
    the embedding model. *)
Record VectorStoreManager (Score : Type) := {
  split_text : str -> outcome (list str);
  from_documents : list Document -> outcome (FAISS Score)
}.
Arguments split_text {Score} _ _.
Arguments from_documents {Score} _ _.

Section VectorStore.
Context {Score : Type}.

(** [text_splitter.create_documents([cv_text], metadatas=[metadata])] *)
Definition create_documents (self : VectorStoreManager Score)
    (cv_text : str) (md : gmap str str) : Comp (list Document) :=
  match split_text self cv_text with
  | Ret chunks =>
      mret (map (fun chunk => {| page_content := chunk; metadata := md |})
                chunks)
  | Raise e => raise e
  end.

Fixpoint create_documents_loop (self : VectorStoreManager Score)
    (items : list (str * str)) (all_documents : list Document)
  : Comp (list Document) :=
  match items with
  | [] => mret all_documents
  | (applicant_name, cv_text) :: rest =>
      chunks ← create_documents self cv_text
                 {[ lit "applicant" := applicant_name ]};
      create_documents_loop self rest (all_documents ++ chunks)
  end.

Definition create_documents_from_cvs (self : VectorStoreManager Score)
    (applicant_cvs : list (str * str)) : Comp (list Document) :=
  create_documents_loop self applicant_cvs [].

Definition create_vectorstore (self : VectorStoreManager Score)
    (applicant_cvs : list (str * str)) : Comp (option (FAISS Score)) :=
  try_except
    (documents ← create_documents_from_cvs self applicant_cvs;
     match documents with
     | [] => mret None
     | _ =>
         vectorstore ← call (FaissFromDocuments documents)
                            (from_documents self documents);
         mret (Some vectorstore)
     end)
    (fun e =>
       _ ← print (lit "Error creating vector store: " ++ e);
       mret None).

Context `{Platform}.

Definition retrieve_documents (vectorstore : FAISS Score) (query : str)
    (k : option Z) : Comp (list Document) :=
  let k := default Config.RETRIEVAL_K k in
  try_except
    (docs ← call (GetRelevantDocuments query k)
                 (get_relevant_documents vectorstore query k);
     mret docs)
    (fun e =>
       _ ← print (lit "Error retrieving documents: " ++ e);
       mret []).

Definition retrieve_with_scores (vectorstore : FAISS Score) (query : str)
    (k : option Z) : Comp (list (Document * Score)) :=
  let k := default Config.MAX_SIMILARITY_DOCS k in
  try_except
    (docs_with_scores ←
       call (SimilaritySearchWithScore query k)
            (similarity_search_with_score vectorstore query k);
     mret docs_with_scores)
    (fun e =>
       _ ← print (lit "Error retrieving documents with scores: " ++ e);
       mret []).

(** [doc.metadata.get('applicant', '').lower() == applicant_name.lower()] *)
Definition belongs_to (applicant_name : str) (doc : Document) : Prop :=
  lower (default [] (metadata doc !! lit "applicant")) = lower applicant_name.

#[global] Instance belongs_to_dec applicant_name doc :
  Decision (belongs_to applicant_name doc).
Proof. unfold belongs_to. apply _. Defined.

Definition filter_documents_by_applicant
    (docs_with_scores : list (Document * Score)) (applicant_name : str)
    (k : option Z) : list Document :=
  let k := default Config.SPECIFIC_RETRIEVAL_K k in
  let filtered_docs :=
    map fst (filter (fun ds => belongs_to applicant_name (fst ds))
                    docs_with_scores) in
  slice_to k filtered_docs.

End VectorStore.

(** ** src/rag_engine.py *)

(** The chat model behind [self.llm]: the [content] of its reply to a
    prompt, or the exception the call raises. *)
Record RAGEngine := {
  llm : str -> outcome str
}.

(** The dictionary [query] returns. *)
Record QueryResult := {
  result : str;
  source_documents : list Document
}.

(** [self.prompt_template] filled in with a context and a question. *)
Definition format_prompt (context question : str) : str :=
  join NL
    [ [];
      lit "You are an expert HR assistant helping recruiters find the right candidates. Use the following CV context to answer recruitment-related questions.";
      [];
      lit "Context: " ++ context;
      [];
      lit "Question: " ++ question;
      [];
      lit "Instructions:";
      lit "- Focus on recruitment-relevant information (skills, experience, education, achievements)";
      lit "- When comparing candidates, be specific about their qualifications";
      lit "- If asking about specific technologies/skills, mention proficiency levels when available";
      lit "- Include years of experience, job titles, and company names when relevant";
      lit "- If information is not available, clearly state that";
      lit "- Provide actionable insights for recruitment decisions";
      lit "- Format output in bullet points for readability";
      [];
      lit "Answer:";
      [] ].

(** The synthetic document a count query is answered from. *)
Definition count_doc (applicant_names : list str) : Document :=
  {| page_content :=
       lit "Total number of CVs/applicants in the database: "
       ++ str_of_nat (length applicant_names)
       ++ NL ++ NL ++ lit "Applicant names: "
       ++ join (lit ", ") applicant_names;
     metadata :=
       <[ lit "applicant" := lit "System" ]>
         {[ lit "type" := lit "count_info" ]} |}.

Definition NO_DOCUMENTS : str := lit "No relevant documents found.".

Section RagEngine.
Context {Score : Type} `{Platform}.

Definition _build_context_from_query (self : RAGEngine) (query : str)
    (vectorstore : FAISS Score) (applicant_names : list str)
  : Comp (list Document) :=
  if is_count_query query then
    mret [count_doc applicant_names]
  else
    (* [if matched_applicant:] is false for [None] and for the empty name *)
    match is_applicant_specific query applicant_names with
    | None | Some [] =>
        retrieve_documents vectorstore query (Some Config.RETRIEVAL_K)
    | Some matched_applicant =>
        docs_with_scores ←
          retrieve_with_scores vectorstore query
                               (Some Config.MAX_SIMILARITY_DOCS);
        mret (filter_documents_by_applicant docs_with_scores
                matched_applicant (Some Config.SPECIFIC_RETRIEVAL_K))
    end.

Definition _build_context_text (documents : list Document) : str :=
  let context_parts :=
    map (fun doc =>
           let applicant_name :=
             default (lit "Unknown") (metadata doc !! lit "applicant") in
           lit "[Applicant: " ++ applicant_name ++ lit "]" ++ NL
           ++ page_content doc)
        documents in
  join (NL ++ NL) context_parts.

Definition query (self : RAGEngine) (query : str)
    (vectorstore : FAISS Score) (applicant_names : list str)
  : Comp QueryResult :=
  try_except
    (context_docs ←
       _build_context_from_query self query vectorstore applicant_names;
     match context_docs with
     | [] => mret {| result := NO_DOCUMENTS; source_documents := [] |}
     | _ =>
         let context_text := _build_context_text context_docs in
         let prompt := format_prompt context_text query in
         content ← call (LlmInvoke prompt) (llm self prompt);
         mret {| result := content; source_documents := context_docs |}
     end)
    (fun e =>
       mret {| result := lit "Error occurred: " ++ e;
               source_documents := [] |}).

End RagEngine.

(** ** What the specification calls containment *)

(** [needle] occurs in [hay] as a contiguous run of characters. *)
Definition occurs_in (needle hay : str) : Prop :=
  exists before after, hay = before ++ needle ++ after.

(** What a search contributes to the router: its ranked answer, or
    nothing when it raised (the retriever answers [] then). *)
Definition search_answer {A} (answer : outcome (list A)) : list A :=
  match answer with
  | Ret ranked => ranked
  | Raise _ => []
  end.

(** The number a decimal numeral denotes. *)
Fixpoint digits_value (acc : nat) (digits : str) : nat :=
  match digits with
  | [] => acc
  | c :: rest => digits_value (10 * acc + N.to_nat (c - 48)) rest
  end.

(** ** Stores, models and batches used as concrete inputs *)

Module Fixtures.

Definition chunk (owner text : string) : Document :=
  {| page_content := lit text;
     metadata := {[ lit "applicant" := lit owner ]} |}.

Definition bob_chunks : list Document :=
  [chunk "Bob" "Python"; chunk "Bob" "Go"; chunk "Bob" "Rust";
   chunk "Bob" "SQL"; chunk "Bob" "Java"; chunk "Bob" "C"].

Definition jane_chunks : list Document :=
  [chunk "Jane Doe" "Python"; chunk "jane doe" "Go"; chunk "Jane Doe" "Rust";
   chunk "Jane Doe" "SQL"; chunk "JANE DOE" "Java"; chunk "Jane Doe" "C"].

(** A store that ranks the same chunks for every query. *)
Definition store_of (ranked : list Document) : FAISS nat :=
  {| similarity_search_with_score _ k :=
       Ret (slice_to k (map (fun doc => (doc, 0)) ranked));
     get_relevant_documents _ k := Ret (slice_to k ranked) |}.

(** A store whose searches fail. *)
Definition broken_store : FAISS nat :=
  {| similarity_search_with_score _ _ := Raise (lit "index unavailable");
     get_relevant_documents _ _ := Raise (lit "index unavailable") |}.

Definition answering_llm : RAGEngine :=
  {| llm _ := Ret (lit "- Bob knows Python") |}.

Definition failing_llm : RAGEngine :=
  {| llm _ := Raise (lit "quota exceeded") |}.

(** Bob first, then one of Jane's chunks, then Bob again, ... *)
Definition mixed_chunks : list Document :=
  [chunk "Bob" "Python"; chunk "Jane Doe" "Python"; chunk "Bob" "Go";
   chunk "jane doe" "Go"; chunk "Jane Doe" "Rust"; chunk "Bob" "Rust";
   chunk "Jane Doe" "SQL"; chunk "JANE DOE" "Java"; chunk "Jane Doe" "C";
   chunk "Bob" "C"].

End Fixtures.

Module EmbeddingFixtures.

(** A model that embeds a text as its length. *)
Definition length_model : HuggingFaceEmbeddings nat :=
  {| hf_embed_documents texts := Ret (map length texts);
     hf_embed_query text := Ret (length text) |}.

End EmbeddingFixtures.

(** ** Vocabulary for the ingestion properties *)

Section Ingestion.
Context `{Platform} (readers : Readers).

(** What reading one file comes to: nothing for an unsupported format,
    else the extracted text or the exception of the extractor. *)
Definition extraction (file : UploadedFile) : option (outcome str) :=
  if decide (type file = PDF_MIME) then
    Some match pdf_pages readers file with
         | Ret pages => Ret (join NL (map (fun page => default [] page) pages))
         | Raise e => Raise (lit "Error reading PDF file: " ++ e)
         end
  else if decide (type file = DOCX_MIME) then
    Some match docx_paragraphs readers file with
         | Ret paragraphs => Ret (join NL paragraphs)
         | Raise e => Raise (lit "Error reading DOCX file: " ++ e)
         end
  else None.

Definition succeeded (file : UploadedFile) : bool :=
  match extraction file with
  | Some (Ret _) => true
  | _ => false
  end.

Definition read_event (file : UploadedFile) : event :=
  if decide (type file = PDF_MIME) then ReadPdf file else ReadDocx file.

Definition warning (file : UploadedFile) (e : str) : event :=
  Print (lit "Warning: Could not process file " ++ name file
         ++ lit ": " ++ e).

(** What processing one file leaves in the trace. *)
Definition file_trace (file : UploadedFile) : list event :=
  match extraction file with
  | None => []
  | Some (Ret _) => [read_event file]
  | Some (Raise e) => [read_event file; warning file e]
  end.

(** What processing one file leaves in the mapping. *)
Definition keep (applicant_cvs : list (str * str)) (file : UploadedFile)
  : list (str * str) :=
  match extraction file with
  | Some (Ret text) =>
      Dict.set (extract_person_name (name file)) text applicant_cvs
  | _ => applicant_cvs
  end.

End Ingestion.

Module IngestionFixtures.

(** A PDF reader that fails on an empty payload and otherwise finds one
    page of text and one page without text; a DOCX reader that finds one
    paragraph. *)
Definition readers : Readers :=
  {| pdf_pages file :=
       match payload file with
       | [] => Raise (lit "EOF marker not found")
       | text => Ret [Some text; None]
       end;
     docx_paragraphs file := Ret [payload file] |}.

Definition jane_pdf : UploadedFile :=
  {| name := lit "Jane Doe.pdf"; type := PDF_MIME;
     payload := lit "Python, SQL" |}.
Definition broken_pdf : UploadedFile :=
  {| name := lit "Bob.pdf"; type := PDF_MIME; payload := [] |}.
Definition notes_txt : UploadedFile :=
  {| name := lit "notes.txt"; type := lit "text/plain";
     payload := lit "call Bob" |}.
Definition john_docx : UploadedFile :=
  {| name := lit "John Smith.docx"; type := DOCX_MIME;
     payload := lit "Go, Rust" |}.

End IngestionFixtures.

Module IndexFixtures.

(** A splitter that cuts nothing out of blank text and keeps any other
    text whole; an index builder that succeeds, and one that fails. *)
Definition whole_text_splitter (text : str) : outcome (list str) :=
  match split text with
  | [] => Ret []
  | _ => Ret [text]
  end.

Definition manager : VectorStoreManager nat :=
  {| split_text := whole_text_splitter;
     from_documents documents := Ret (Fixtures.store_of documents) |}.

Definition manager_without_model : VectorStoreManager nat :=
  {| split_text := whole_text_splitter;
     from_documents _ := Raise (lit "model not loaded") |}.

End IndexFixtures.

(** A word as [split] yields them: not empty, no whitespace inside. *)
Definition word (w : str) : Prop :=
  w <> [] /\ Forall (fun c => isspace c = false) w.

(** A text that holds none of the artifacts [clean_text] removes. *)
Definition artifact_free (text : str) : Prop :=
  (0%N ∉ text) /\ (65533%N ∉ text).

(** ** utils/helpers.py: the remaining helpers *)

(** [s.rsplit(c, 1)[0]] for a one-character separator: what stands before
    the last [c], if [c] occurs at all. *)
Fixpoint before_last (c : char) (s : str) : option str :=
  match s with
  | [] => None
  | x :: s' =>
      match before_last c s' with
      | Some p => Some (x :: p)
      | None => if (x =? c)%N then Some [] else None
      end
  end.

Definition rsplit1_head (c : char) (s : str) : str :=
  default s (before_last c s).

Definition format_applicant_list (applicant_names : list str) : str :=
  match applicant_names with
  | [] => lit "No applicants"
  | [only] => only
  | [first; second] => first ++ lit " and " ++ second
  | _ =>
      join (lit ", ") (slice_to (-1) applicant_names)
      ++ lit ", and " ++ default [] (last applicant_names)
  end.

Definition truncate_text (text : str) (max_length : option Z) : str :=
  let max_length := default 400%Z max_length in
  if (Z.of_nat (length text) <=? max_length)%Z then text
  else rsplit1_head 32%N (slice_to max_length text) ++ lit "...".

(** [Config.GOOGLE_API_KEY] is what [os.getenv] found: [None] when the
    variable is not set. *)
Definition validate_api_key (GOOGLE_API_KEY : option str) : bool :=
  match GOOGLE_API_KEY with
  | None => false
  | Some [] => false
  | Some key => match strip key with [] => false | _ => true end
  end.

(** A character [clean_text] is meant to keep: neither whitespace nor one
    of the two artifacts. *)
Definition visible (c : N) : bool :=
  negb (isspace c) && negb (c =? 0)%N && negb (c =? 65533)%N.

(** ** src/rag_engine.py: QueryAnalyzer *)

Module QueryAnalyzer.

(** The dictionary [analyze_query] returns, key by key. *)
Record Analysis := {
  analysis_query : str;
  analysis_is_count_query : bool;
  analysis_is_applicant_specific : bool;
  analysis_matched_applicant : option str;
  analysis_query_type : str
}.

Section WithPlatform.
Context `{Platform}.

Definition analyze_query (query : str) (applicant_names : list str)
  : Analysis :=
  let analysis :=
    {| analysis_query := query;
       analysis_is_count_query := is_count_query query;
       analysis_is_applicant_specific := false;
       analysis_matched_applicant := None;
       analysis_query_type := lit "general" |} in
  let matched_applicant := is_applicant_specific query applicant_names in
  let analysis :=
    match matched_applicant with
    | None | Some [] => analysis
    | Some _ =>
        {| analysis_query := analysis_query analysis;
           analysis_is_count_query := analysis_is_count_query analysis;
           analysis_is_applicant_specific := true;
           analysis_matched_applicant := matched_applicant;
           analysis_query_type := lit "applicant_specific" |}
    end in
  if analysis_is_count_query analysis then
    {| analysis_query := analysis_query analysis;
       analysis_is_count_query := analysis_is_count_query analysis;
       analysis_is_applicant_specific :=
         analysis_is_applicant_specific analysis;
       analysis_matched_applicant := analysis_matched_applicant analysis;
       analysis_query_type := lit "count" |}
  else analysis.

End WithPlatform.


End QueryAnalyzer.

(** ** Vocabulary for the index-building properties *)

(** The documents one CV contributes: its chunks, each tagged with the
    applicant's name. *)
Definition tagged_chunks {Score : Type} (self : VectorStoreManager Score)
    (item : str * str) : list Document :=
  match split_text self (snd item) with
  | Ret chunks =>
      map (fun chunk =>
             {| page_content := chunk;
                metadata := {[ lit "applicant" := fst item ]} |})
          chunks
  | Raise _ => []
  end.

Definition splits {Score : Type} (self : VectorStoreManager Score)
    (item : str * str) : Prop :=
  exists chunks, split_text self (snd item) = Ret chunks.

(** ** src/document_processor.py: validate_files *)

Definition SUPPORTED_MIME_TYPES : list str := [PDF_MIME; DOCX_MIME].

Fixpoint validate_loop (uploaded_files : list UploadedFile)
    (errors : list str) : list str :=
  match uploaded_files with
  | [] => errors
  | file :: rest =>
      if decide (type file ∈ SUPPORTED_MIME_TYPES)
      then validate_loop rest errors
      else validate_loop rest
             (errors ++ [lit "Unsupported file type: " ++ name file])
  end.

Definition validate_files (uploaded_files : list UploadedFile) : list str :=
  match uploaded_files with
  | [] => [lit "No files uploaded"]
  | _ => validate_loop uploaded_files []
  end.

(** ** src/ui_components.py and app.py: session state and handlers *)

(** Calls into Streamlit and the constructors of the two service objects,
    next to the calls of the core. *)
Inductive ui_event : Type :=
| Core (e : event)
| StSpinner (message : str)
| StWarning (message : str)
| StError (message : str)
| StSuccess (message : str)
| StInfo (message : str)
| StMarkdown (html : str)
| StWrite (text : str)
| NewVectorStoreManager
| NewRAGEngine.

Section App.
Context {Score : Type} `{Platform}.

(** [st.session_state]: an attribute is absent ([None]) or holds a value;
    the store itself may hold Python's [None]. *)
Record SessionState := {
  ss_vectorstore : option (option (FAISS Score));
  ss_applicant_names : option (list str);
  ss_applicant_cvs : option (list (str * str))
}.

(** What the handlers need from outside: the readers, and what
    constructing a [VectorStoreManager] (it loads the embedding model) and
    a [RAGEngine] (it connects to the chat model) gives. *)
Record Services := {
  svc_readers : Readers;
  svc_new_manager : outcome (VectorStoreManager Score);
  svc_new_engine : outcome RAGEngine
}.

(** A handler's computation: it reads and writes the session state, logs
    its calls, and ends with a value or a raised exception. *)
Definition UiComp (A : Type) : Type :=
  SessionState -> list ui_event * SessionState * outcome A.

#[global] Instance UiComp_ret : MRet UiComp := fun A a s => ([], s, Ret a).

#[global] Instance UiComp_bind : MBind UiComp := fun A B f m s =>
  match m s with
  | (t, s1, Ret a) => let '(t', s2, o) := f a s1 in (t ++ t', s2, o)
  | (t, s1, Raise msg) => (t, s1, Raise msg)
  end.

Definition ui_try {A} (body : UiComp A) (handler : str -> UiComp A)
  : UiComp A :=
  fun s =>
    match body s with
    | (t, s1, Ret a) => (t, s1, Ret a)
    | (t, s1, Raise msg) =>
        let '(t', s2, o) := handler msg s1 in (t ++ t', s2, o)
    end.

Definition ui_emit (e : ui_event) : UiComp unit := fun s => ([e], s, Ret tt).

Definition ui_call {A} (e : ui_event) (answer : outcome A) : UiComp A :=
  fun s => ([e], s, answer).

(** A computation of the core, run from a handler. *)
Definition ui_core {A} (c : Comp A) : UiComp A :=
  fun s => (map Core (trace c), s, result_of c).

Definition ui_read {A} (f : SessionState -> A) : UiComp A :=
  fun s => ([], s, Ret (f s)).

Definition ui_write (f : SessionState -> SessionState) : UiComp unit :=
  fun s => ([], f s, Ret tt).

End App.

Arguments SessionState : clear implicits.
Arguments Services : clear implicits.
Arguments UiComp : clear implicits.

Module SessionManager.
Section WithScore.
Context {Score : Type}.

Definition initialize_session_state (s : SessionState Score)
  : SessionState Score :=
  let s :=
    match ss_vectorstore s with
    | None => {| ss_vectorstore := Some None;
                 ss_applicant_names := ss_applicant_names s;
                 ss_applicant_cvs := ss_applicant_cvs s |}
    | Some _ => s
    end in
  let s :=
    match ss_applicant_names s with
    | None => {| ss_vectorstore := ss_vectorstore s;
                 ss_applicant_names := Some [];
                 ss_applicant_cvs := ss_applicant_cvs s |}
    | Some _ => s
    end in
  match ss_applicant_cvs s with
  | None => {| ss_vectorstore := ss_vectorstore s;
               ss_applicant_names := ss_applicant_names s;
               ss_applicant_cvs := Some [] |}
  | Some _ => s
  end.

Definition update_vectorstore (vectorstore : option (FAISS Score))
    (applicant_names : list str) (applicant_cvs : list (str * str))
    (s : SessionState Score) : SessionState Score :=
  {| ss_vectorstore := Some vectorstore;
     ss_applicant_names := Some applicant_names;
     ss_applicant_cvs := Some applicant_cvs |}.

Definition has_vectorstore (s : SessionState Score) : bool :=
  match ss_vectorstore s with
  | Some (Some _) => true
  | _ => false
  end.

Definition get_vectorstore (s : SessionState Score)
  : option (FAISS Score) :=
  default None (ss_vectorstore s).

Definition get_applicant_names (s : SessionState Score) : list str :=
  default [] (ss_applicant_names s).

Definition get_applicant_cvs (s : SessionState Score)
  : list (str * str) :=
  default [] (ss_applicant_cvs s).

End WithScore.
End SessionManager.

Module UIComponents.
Section WithScore.
Context {Score : Type}.

Definition render_loading_spinner (message : str) : UiComp Score unit :=
  ui_emit (StSpinner message).
Definition show_success_message (message : str) : UiComp Score unit :=
  ui_emit (StSuccess message).
Definition show_error_message (message : str) : UiComp Score unit :=
  ui_emit (StError message).
Definition show_warning_message (message : str) : UiComp Score unit :=
  ui_emit (StWarning message).
Definition show_info_message (message : str) : UiComp Score unit :=
  ui_emit (StInfo message).

End WithScore.
End UIComponents.

(** The pictographs of the messages, by code point. *)
Definition CROSS_MARK : str := [10060%N].
Definition CHECK_MARK : str := [9989%N].
Definition CLIPBOARD : str := [128203%N].

Section Handlers.
Context {Score : Type} `{Platform}.

(** app.py, [handle_file_upload]. A store object is always true in
    [if vectorstore:], so only [None] takes the [else] branch. *)
Definition handle_file_upload (services : Services Score)
    (uploaded_files : list UploadedFile) : UiComp Score unit :=
  match uploaded_files with
  | [] =>
      UIComponents.show_warning_message
        (lit "Please upload one or more CV files before indexing.")
  | _ =>
      _ ← UIComponents.render_loading_spinner
            (lit "Processing CVs and building vectorstore...");
      ui_try
        (applicant_cvs ←
           ui_core (DocumentProcessor.extract_text_from_files
                      (svc_readers services) uploaded_files);
         match applicant_cvs with
         | [] =>
             UIComponents.show_error_message
               (CROSS_MARK ++ lit " No valid CV files found.")
         | _ =>
             vectorstore_manager ←
               ui_call NewVectorStoreManager (svc_new_manager services);
             vectorstore ←
               ui_core (create_vectorstore vectorstore_manager applicant_cvs);
             match vectorstore with
             | Some _ =>
                 let applicant_names := Dict.keys applicant_cvs in
                 _ ← ui_write (SessionManager.update_vectorstore vectorstore
                                 applicant_names applicant_cvs);
                 _ ← UIComponents.show_success_message
                       (CHECK_MARK ++ lit " Successfully indexed "
                        ++ str_of_nat (length applicant_cvs) ++ lit " CVs!");
                 UIComponents.show_info_message
                   (CLIPBOARD ++ lit " Loaded applicants: "
                    ++ join (lit ", ") applicant_names)
             | None =>
                 UIComponents.show_error_message
                   (CROSS_MARK ++ lit " Failed to create vectorstore")
             end
         end)
        (fun e =>
           UIComponents.show_error_message
             (CROSS_MARK ++ lit " Error: " ++ e))
  end.

End Handlers.

(** ** src/ui_components.py: rendering results; app.py: handle_query *)

Definition QUOTE : str := [34%N].
Definition DIRECT_HIT : str := [127919%N].
Definition BOOKS : str := [128218%N].
Definition INDENT12 : str := lit "            ".
Definition INDENT16 : str := lit "                ".

(** The card of one source document, as the f-string of the source lays
    it out. *)
Definition card_html (doc : Document) : str :=
  let applicant_name :=
    default (lit "Unknown") (metadata doc !! lit "applicant") in
  NL ++ INDENT12 ++ lit "<div class=" ++ QUOTE ++ lit "card" ++ QUOTE
  ++ lit ">" ++ NL
  ++ INDENT16 ++ lit "<h5>" ++ applicant_name ++ lit "</h5>" ++ NL
  ++ INDENT16 ++ lit "<p><b>Type:</b> "
  ++ default (lit "CV Content") (metadata doc !! lit "type")
  ++ lit "</p>" ++ NL
  ++ INDENT16 ++ lit "<p><b>Preview:</b> "
  ++ slice_to 400 (page_content doc) ++ lit "...</p>" ++ NL
  ++ INDENT12 ++ lit "</div>" ++ NL
  ++ INDENT12.

(** The store the handlers pass on when the session holds [None]: every
    use of it is an attribute error on [None]. *)
Definition none_store {Score : Type} : FAISS Score :=
  {| similarity_search_with_score _ _ :=
       Raise (lit "'NoneType' object has no attribute 'similarity_search_with_score'");
     get_relevant_documents _ _ :=
       Raise (lit "'NoneType' object has no attribute 'as_retriever'") |}.

Section Rendering.
Context {Score : Type} `{Platform}.

Fixpoint _render_source_loop (source_documents : list Document)
    (seen_names : gset str) : UiComp Score unit :=
  match source_documents with
  | [] => mret tt
  | doc :: rest =>
      let applicant_name :=
        default (lit "Unknown") (metadata doc !! lit "applicant") in
      if decide (applicant_name ∈ seen_names) then
        _render_source_loop rest seen_names
      else
        _ ← ui_emit (StMarkdown (card_html doc));
        _render_source_loop rest ({[ applicant_name ]} ∪ seen_names)
  end.

Definition _render_source_documents (source_documents : list Document)
  : UiComp Score unit :=
  _render_source_loop source_documents ∅.

Definition render_results (result : str) (source_documents : list Document)
  : UiComp Score unit :=
  _ ← ui_emit (StMarkdown (lit "<div class='section'><h4>" ++ DIRECT_HIT
                           ++ lit " Answer</h4></div>"));
  _ ← ui_emit (StWrite result);
  match source_documents with
  | [] => mret tt
  | _ =>
      _ ← ui_emit (StMarkdown (lit "<div class='section'><h4>" ++ BOOKS
                               ++ lit " Source CV Highlights</h4></div>"));
      _render_source_documents source_documents
  end.

(** app.py, [handle_query]. *)
Definition handle_query (services : Services Score) (user_query : str)
  : UiComp Score unit :=
  _ ← UIComponents.render_loading_spinner
        (lit "Retrieving relevant candidates...");
  ui_try
    (vectorstore ← ui_read SessionManager.get_vectorstore;
     applicant_names ← ui_read SessionManager.get_applicant_names;
     rag_engine ← ui_call NewRAGEngine (svc_new_engine services);
     r ← ui_core (query rag_engine user_query
                    (default none_store vectorstore) applicant_names);
     render_results (result r) (source_documents r))
    (fun e =>
       UIComponents.show_error_message
         (CROSS_MARK ++ lit " Error processing query: " ++ e)).

End Rendering.

(** The applicant a source card is labelled with. *)
Definition label (doc : Document) : str :=
  default (lit "Unknown") (metadata doc !! lit "applicant").

(** The two calls that search the index. *)
Definition is_search (e : event) : bool :=
  match e with
  | SimilaritySearchWithScore _ _ | GetRelevantDocuments _ _ => true
  | _ => false
  end.

(** The call to the chat model. *)
Definition is_llm_call (e : event) : bool :=
  match e with
  | LlmInvoke _ => true
  | _ => false
  end.

(** * Properties *)

(** ** Strings *)

Lemma startswith_spec (p s : str) :
  startswith p s = true <-> exists rest, s = p ++ rest.
Proof.
  revert s. induction p as [|a p IH]; intros s; simpl.
  - split; [intros _; by exists s | done].
  - destruct s as [|b s]; simpl.
    + split; [done | intros [rest Hrest]; discriminate].
    + rewrite andb_true_iff, N.eqb_eq, IH. split.
      * intros [-> [rest ->]]. by exists rest.
      * intros [rest Hrest]. injection Hrest as -> ->. eauto.
Qed.

Lemma contains_spec (needle hay : str) :
  contains needle hay = true <-> occurs_in needle hay.
Proof.
  unfold occurs_in. induction hay as [|c hay IH].
  - simpl. rewrite orb_false_r, startswith_spec. split.
    + intros [rest Hrest]. by exists [], rest.
    + intros [before [after Heq]]. symmetry in Heq.
      apply app_eq_nil in Heq as [-> Heq]. by exists after.
  - cbn [contains]. rewrite orb_true_iff, startswith_spec, IH. split.
    + intros [[rest Hrest] | [before [after Heq]]].
      * by exists [], rest.
      * exists (c :: before), after. by rewrite Heq.
    + intros [[|b before] [after Heq]].
      * left. by exists after.
      * right. injection Heq as -> ->. by exists before, after.
Qed.

Lemma contains_false_spec (needle hay : str) :
  contains needle hay = false <-> ~ occurs_in needle hay.
Proof. rewrite <- contains_spec. by destruct (contains needle hay). Qed.

Lemma existsb_contains (keywords : list str) (s : str) :
  existsb (fun keyword => contains keyword s) keywords = true
  <-> exists keyword, keyword ∈ keywords /\ occurs_in keyword s.
Proof.
  rewrite existsb_exists. split; intros [kw [Hin Hkw]]; exists kw.
  - split; [by apply list_elem_of_In | by apply contains_spec].
  - split; [by apply list_elem_of_In | by apply contains_spec].
Qed.

(** ** utils/helpers.py: query classification *)

(** C1. [is_count_query] answers [True] exactly when the lower-cased query
    contains a phrase of the counting vocabulary and a phrase of the
    corpus-noun vocabulary, the two vocabularies being the fixed lists of
    the configuration; one of the two alone is not enough. On an ASCII
    platform, "How many CVs do you have?" is a count query and
    "How many years of experience?" is not. *)
Theorem is_count_query_iff_both_vocabularies :
  Config.COUNT_KEYWORDS =
    [lit "how many"; lit "count"; lit "number of"; lit "total";
     lit "how much"]
  /\ Config.CV_KEYWORDS =
    [lit "cv"; lit "cvs"; lit "resume"; lit "resumes"; lit "applicant";
     lit "applicants"; lit "candidate"; lit "candidates"]
  /\ (forall (P : Platform) (query : str),
        is_count_query query = true <->
        (exists keyword, keyword ∈ Config.COUNT_KEYWORDS
                         /\ occurs_in keyword (lower query))
        /\ (exists keyword, keyword ∈ Config.CV_KEYWORDS
                            /\ occurs_in keyword (lower query)))
  /\ (forall (P : Platform) (query : str),
        (forall keyword, keyword ∈ Config.CV_KEYWORDS ->
                         ~ occurs_in keyword (lower query)) ->
        is_count_query query = false)
  /\ (forall (P : Platform) (query : str),
        (forall keyword, keyword ∈ Config.COUNT_KEYWORDS ->
                         ~ occurs_in keyword (lower query)) ->
        is_count_query query = false)
  /\ @is_count_query ascii_platform (lit "How many CVs do you have?") = true
  /\ @is_count_query ascii_platform (lit "How many years of experience?")
     = false.
Proof.
  assert (Hiff : forall (P : Platform) (query : str),
        is_count_query query = true <->
        (exists keyword, keyword ∈ Config.COUNT_KEYWORDS
                         /\ occurs_in keyword (lower query))
        /\ (exists keyword, keyword ∈ Config.CV_KEYWORDS
                            /\ occurs_in keyword (lower query))).
  { intros P query. unfold is_count_query.
    by rewrite andb_true_iff, !existsb_contains. }
  split; [reflexivity|]. split; [reflexivity|]. split; [exact Hiff|].
  split; [|split; [|split; vm_compute; reflexivity]].
  - intros P query Hnone. apply not_true_is_false. rewrite Hiff.
    intros [_ [kw [Hin Hocc]]]. by apply (Hnone kw).
  - intros P query Hnone. apply not_true_is_false. rewrite Hiff.
    intros [[kw [Hin Hocc]] _]. by apply (Hnone kw).
Qed.

Lemma first_name_in_Some `{Platform} (query_lower : str) (names : list str)
    (name : str) :
  first_name_in query_lower names = Some name <->
  exists before after,
    names = before ++ name :: after
    /\ occurs_in (lower name) query_lower
    /\ Forall (fun other => ~ occurs_in (lower other) query_lower) before.
Proof.
  induction names as [|n names IH]; simpl.
  - split; [done|]. intros [before [after [Heq _]]].
    by destruct before.
  - destruct (contains (lower n) query_lower) eqn:Hc.
    + apply contains_spec in Hc. split.
      * intros [= ->]. by exists [], names.
      * intros [[|b before] [after [Heq [Hocc Hbefore]]]].
        -- by injection Heq as ->.
        -- injection Heq as -> ->. by apply Forall_cons in Hbefore as [? _].
    + apply contains_false_spec in Hc. rewrite IH. split.
      * intros [before [after [-> [Hocc Hbefore]]]].
        exists (n :: before), after. split_and!; [done|done|].
        by constructor.
      * intros [[|b before] [after [Heq [Hocc Hbefore]]]].
        -- injection Heq as -> ->. done.
        -- injection Heq as -> ->. apply Forall_cons in Hbefore as [_ ?].
           by exists before, after.
Qed.

Lemma first_name_in_None `{Platform} (query_lower : str) (names : list str) :
  first_name_in query_lower names = None <->
  Forall (fun other => ~ occurs_in (lower other) query_lower) names.
Proof.
  induction names as [|n names IH]; simpl.
  - split; [constructor | done].
  - destruct (contains (lower n) query_lower) eqn:Hc.
    + apply contains_spec in Hc. split; [done|].
      intros [Hn _]%Forall_cons. done.
    + apply contains_false_spec in Hc. rewrite IH. split.
      * by constructor.
      * by intros [_ ?]%Forall_cons.
Qed.

(** C3. [is_applicant_specific] scans the names in list order: it returns
    a name exactly when that name's lower-cased form occurs in the
    lower-cased query and no earlier name of the list does, and it returns
    no match exactly when no name's lower-cased form occurs in the query.
    Containment is unscoped, so a short name wins inside a longer word. *)
Theorem is_applicant_specific_first_match :
  (forall (P : Platform) (query : str) (applicant_names : list str)
          (name : str),
     is_applicant_specific query applicant_names = Some name <->
     exists before after,
       applicant_names = before ++ name :: after
       /\ occurs_in (lower name) (lower query)
       /\ Forall (fun other => ~ occurs_in (lower other) (lower query))
                 before)
  /\ (forall (P : Platform) (query : str) (applicant_names : list str),
        is_applicant_specific query applicant_names = None <->
        Forall (fun other => ~ occurs_in (lower other) (lower query))
               applicant_names)
  /\ @is_applicant_specific ascii_platform
       (lit "What are Jane Doe's skills?") [lit "Jane Doe"; lit "John Smith"]
     = Some (lit "Jane Doe")
  /\ @is_applicant_specific ascii_platform
       (lit "Tell me about John") [lit "Jo"; lit "John"]
     = Some (lit "Jo")
  /\ @is_applicant_specific ascii_platform
       (lit "Who knows Python?") [lit "Jane Doe"; lit "John Smith"]
     = None.
Proof.
  split; [|split; [|split_and!; vm_compute; reflexivity]].
  - intros P query names name. apply first_name_in_Some.
  - intros P query names. apply first_name_in_None.
Qed.

(** ** src/vectorstore.py: retrieval *)

Section Retrieval.
Context {Score : Type} `{Platform}.
Implicit Types (vectorstore : FAISS Score) (query : str) (k : Z).

(** The retriever absorbs a failing search: it prints and answers []. *)
Lemma retrieve_documents_unfold vectorstore query k :
  retrieve_documents vectorstore query (Some k) =
  match get_relevant_documents vectorstore query k with
  | Ret docs => ([GetRelevantDocuments query k], Ret docs)
  | Raise e =>
      ([GetRelevantDocuments query k;
        Print (lit "Error retrieving documents: " ++ e)], Ret [])
  end.
Proof.
  unfold retrieve_documents, try_except, call, print, mbind, mret,
    Comp_bind, Comp_ret, call. simpl.
  by destruct (get_relevant_documents vectorstore query k).
Qed.

Lemma retrieve_with_scores_unfold vectorstore query k :
  retrieve_with_scores vectorstore query (Some k) =
  match similarity_search_with_score vectorstore query k with
  | Ret docs => ([SimilaritySearchWithScore query k], Ret docs)
  | Raise e =>
      ([SimilaritySearchWithScore query k;
        Print (lit "Error retrieving documents with scores: " ++ e)], Ret [])
  end.
Proof.
  unfold retrieve_with_scores, try_except, call, print, mbind, mret,
    Comp_bind, Comp_ret, call. simpl.
  by destruct (similarity_search_with_score vectorstore query k).
Qed.

Lemma slice_to_nonneg {A} (n : nat) (l : list A) :
  slice_to (Z.of_nat n) l = take n l.
Proof.
  unfold slice_to. rewrite (proj2 (Z.leb_le _ _)) by lia.
  by rewrite Nat2Z.id.
Qed.

Lemma filter_documents_by_applicant_unfold
    (docs_with_scores : list (Document * Score)) (applicant_name : str) :
  filter_documents_by_applicant docs_with_scores applicant_name
    (Some Config.SPECIFIC_RETRIEVAL_K)
  = take 5 (map fst (filter (fun ds => belongs_to applicant_name (fst ds))
                            docs_with_scores)).
Proof.
  unfold filter_documents_by_applicant. simpl.
  change Config.SPECIFIC_RETRIEVAL_K with (Z.of_nat 5).
  apply slice_to_nonneg.
Qed.

Lemma filter_documents_by_applicant_tagged
    (docs_with_scores : list (Document * Score)) (applicant_name : str) :
  Forall (belongs_to applicant_name)
    (filter_documents_by_applicant docs_with_scores applicant_name
       (Some Config.SPECIFIC_RETRIEVAL_K)).
Proof.
  rewrite filter_documents_by_applicant_unfold.
  apply Forall_take, Forall_fmap.
  induction docs_with_scores as [|[doc score] rest IH]; [constructor|].
  rewrite filter_cons. case_decide; [constructor|]; done.
Qed.

Lemma filter_documents_by_applicant_ranked
    (docs_with_scores : list (Document * Score)) (applicant_name : str) :
  sublist
    (filter_documents_by_applicant docs_with_scores applicant_name
       (Some Config.SPECIFIC_RETRIEVAL_K))
    (map fst docs_with_scores).
Proof.
  rewrite filter_documents_by_applicant_unfold.
  etrans; [apply sublist_take|].
  apply fmap_sublist, sublist_filter.
Qed.

End Retrieval.

(** ** src/rag_engine.py: the router *)

Lemma digits_value_uint (d : Decimal.uint) (acc : nat) :
  digits_value acc (uint_digits d) = Nat.of_uint_acc d acc.
Proof.
  revert acc. induction d; intros acc; simpl; rewrite ?IHd;
    rewrite ?Nat.tail_mul_spec; f_equal; lia.
Qed.

(** The numeral printed for a length denotes that length. *)
Lemma str_of_nat_value (n : nat) : digits_value 0 (str_of_nat n) = n.
Proof.
  unfold str_of_nat. rewrite digits_value_uint.
  apply DecimalNat.Unsigned.of_to.
Qed.

(** C2. For a count query the router answers with exactly one synthetic
    document, builds it from the applicant-name list alone (its text gives
    the number of names, in decimal, and the names joined by commas; it is
    tagged as coming from the system) and calls nothing outside: the index
    is not searched. The test comes first, so this holds whatever names the
    query contains. *)
Theorem count_query_answered_from_name_list `{Platform} {Score : Type}
    (self : RAGEngine) (query : str) (vectorstore : FAISS Score)
    (applicant_names : list str) :
  is_count_query query = true ->
  _build_context_from_query self query vectorstore applicant_names
  = ([], Ret [count_doc applicant_names])
  /\ page_content (count_doc applicant_names)
     = lit "Total number of CVs/applicants in the database: "
       ++ str_of_nat (length applicant_names)
       ++ NL ++ NL ++ lit "Applicant names: "
       ++ join (lit ", ") applicant_names
  /\ digits_value 0 (str_of_nat (length applicant_names))
     = length applicant_names
  /\ metadata (count_doc applicant_names) !! lit "applicant"
     = Some (lit "System")
  /\ metadata (count_doc applicant_names) !! lit "type"
     = Some (lit "count_info").
Proof.
  intros Hcount. unfold _build_context_from_query. rewrite Hcount.
  split_and!; [done | done | apply str_of_nat_value | |].
  - unfold count_doc. cbn [metadata]. apply lookup_insert_eq.
  - unfold count_doc. cbn [metadata]. rewrite lookup_insert_ne.
    + apply lookup_singleton_eq.
    + vm_compute. discriminate.
Qed.

(** C2, at a count query that names an applicant. *)
Lemma count_query_answered_from_name_list_witness :
  @is_count_query ascii_platform (lit "How many CVs mention Jane Doe?") = true
  /\ @is_applicant_specific ascii_platform
       (lit "How many CVs mention Jane Doe?") [lit "Jane Doe"; lit "Bob"]
     = Some (lit "Jane Doe")
  /\ @_build_context_from_query nat ascii_platform Fixtures.answering_llm
       (lit "How many CVs mention Jane Doe?")
       (Fixtures.store_of Fixtures.mixed_chunks) [lit "Jane Doe"; lit "Bob"]
     = ([], Ret [count_doc [lit "Jane Doe"; lit "Bob"]])
  /\ page_content (count_doc [lit "Jane Doe"; lit "Bob"])
     = lit "Total number of CVs/applicants in the database: 2"
       ++ NL ++ NL ++ lit "Applicant names: Jane Doe, Bob".
Proof.
  split; [vm_compute; reflexivity|].
  split; [vm_compute; reflexivity|].
  split; [|vm_compute; reflexivity].
  apply (@count_query_answered_from_name_list ascii_platform nat
           Fixtures.answering_llm (lit "How many CVs mention Jane Doe?")
           (Fixtures.store_of Fixtures.mixed_chunks)
           [lit "Jane Doe"; lit "Bob"]).
  vm_compute; reflexivity.
Defined.

(** The router in its three cases. *)
Lemma router_person_specific `{Platform} {Score : Type} (self : RAGEngine)
    (query : str) (vectorstore : FAISS Score) (applicant_names : list str)
    (matched : str) :
  is_count_query query = false ->
  is_applicant_specific query applicant_names = Some matched ->
  matched <> [] ->
  _build_context_from_query self query vectorstore applicant_names
  = match similarity_search_with_score vectorstore query 100 with
    | Ret ranked =>
        ([SimilaritySearchWithScore query 100],
         Ret (filter_documents_by_applicant ranked matched
                (Some Config.SPECIFIC_RETRIEVAL_K)))
    | Raise e =>
        ([SimilaritySearchWithScore query 100;
          Print (lit "Error retrieving documents with scores: " ++ e)],
         Ret [])
    end.
Proof.
  intros Hcount Hmatch Hne. unfold _build_context_from_query.
  rewrite Hcount, Hmatch. destruct matched as [|c matched]; [done|].
  rewrite retrieve_with_scores_unfold.
  change Config.MAX_SIMILARITY_DOCS with 100%Z.
  by destruct (similarity_search_with_score vectorstore query 100).
Qed.

Lemma router_general `{Platform} {Score : Type} (self : RAGEngine)
    (query : str) (vectorstore : FAISS Score) (applicant_names : list str) :
  is_count_query query = false ->
  is_applicant_specific query applicant_names = None
  \/ is_applicant_specific query applicant_names = Some [] ->
  _build_context_from_query self query vectorstore applicant_names
  = match get_relevant_documents vectorstore query 20 with
    | Ret docs => ([GetRelevantDocuments query 20], Ret docs)
    | Raise e =>
        ([GetRelevantDocuments query 20;
          Print (lit "Error retrieving documents: " ++ e)], Ret [])
    end.
Proof.
  intros Hcount Hmatch. unfold _build_context_from_query. rewrite Hcount.
  rewrite <- (retrieve_documents_unfold vectorstore query 20).
  by destruct Hmatch as [-> | ->].
Qed.

(** C4, as the code has it. When the query is not a count query and the
    matched applicant name N is not the empty string, the router runs one
    similarity search with k = 100 over the whole index and nothing else,
    keeps of the ranked answer the documents whose applicant metadata
    equals N up to case, in rank order, and cuts that list to its first 5:
    every returned item is tagged N (up to case) and there are at most 5.
    A search that raises contributes no document. *)
Theorem person_specific_overfetch_filter_truncate `{Platform} {Score : Type}
    (self : RAGEngine) (query : str) (vectorstore : FAISS Score)
    (applicant_names : list str) (N : str) :
  is_count_query query = false ->
  is_applicant_specific query applicant_names = Some N ->
  N <> [] ->
  exists (warnings : list event) (docs : list Document),
    _build_context_from_query self query vectorstore applicant_names
    = (SimilaritySearchWithScore query 100 :: warnings, Ret docs)
    /\ Forall (fun e => exists msg, e = Print msg) warnings
    /\ docs = take 5 (map fst
                (filter (fun ds => belongs_to N (fst ds))
                   (search_answer
                      (similarity_search_with_score vectorstore query 100))))
    /\ Forall (belongs_to N) docs
    /\ length docs <= 5
    /\ sublist docs
         (map fst (search_answer
                     (similarity_search_with_score vectorstore query 100))).
Proof.
  intros Hcount Hmatch Hne.
  rewrite (router_person_specific self query vectorstore applicant_names N)
    by done.
  destruct (similarity_search_with_score vectorstore query 100)
    as [ranked|e]; simpl.
  - exists [], (filter_documents_by_applicant ranked N
                  (Some Config.SPECIFIC_RETRIEVAL_K)).
    split_and!; [done | constructor | | | |].
    + apply filter_documents_by_applicant_unfold.
    + apply filter_documents_by_applicant_tagged.
    + rewrite filter_documents_by_applicant_unfold, length_take. lia.
    + apply filter_documents_by_applicant_ranked.
  - exists [Print (lit "Error retrieving documents with scores: " ++ e)], [].
    split_and!; [done | | done | constructor | simpl; lia | constructor].
    constructor; [by eexists | constructor].
Qed.

(** C4, at the specification's example: of ten ranked chunks, Jane Doe's
    first five, in rank order, whatever the case of their tag. *)
Lemma person_specific_overfetch_filter_truncate_witness :
  (@is_count_query ascii_platform (lit "What are Jane Doe's skills?") = false
   /\ @is_applicant_specific ascii_platform
        (lit "What are Jane Doe's skills?") [lit "Jane Doe"; lit "John Smith"]
      = Some (lit "Jane Doe")
   /\ lit "Jane Doe" <> [])
  /\ (exists (warnings : list event) (docs : list Document),
        @_build_context_from_query nat ascii_platform Fixtures.answering_llm
          (lit "What are Jane Doe's skills?")
          (Fixtures.store_of Fixtures.mixed_chunks)
          [lit "Jane Doe"; lit "John Smith"]
        = (SimilaritySearchWithScore (lit "What are Jane Doe's skills?") 100
             :: warnings, Ret docs)
        /\ Forall (fun e => exists msg, e = Print msg) warnings
        /\ docs = take 5 (map fst
                    (filter (fun ds => @belongs_to ascii_platform
                                         (lit "Jane Doe") (fst ds))
                       (search_answer
                          (similarity_search_with_score
                             (Fixtures.store_of Fixtures.mixed_chunks)
                             (lit "What are Jane Doe's skills?") 100))))
        /\ Forall (@belongs_to ascii_platform (lit "Jane Doe")) docs
        /\ length docs <= 5
        /\ sublist docs
             (map fst (search_answer
                         (similarity_search_with_score
                            (Fixtures.store_of Fixtures.mixed_chunks)
                            (lit "What are Jane Doe's skills?") 100)))).
Proof.
  split.
  - split; [vm_compute; reflexivity|].
    split; [vm_compute; reflexivity | vm_compute; discriminate].
  - apply (@person_specific_overfetch_filter_truncate ascii_platform nat
             Fixtures.answering_llm (lit "What are Jane Doe's skills?")
             (Fixtures.store_of Fixtures.mixed_chunks)
             [lit "Jane Doe"; lit "John Smith"] (lit "Jane Doe")).
    + vm_compute; reflexivity.
    + vm_compute; reflexivity.
    + vm_compute; discriminate.
Defined.

(** C4 as stated fails for the empty applicant name: it is a substring of
    every query, so [is_applicant_specific] matches it, but the router's
    truth test on the match sends the query to the general search
    (k = 20, unfiltered). Here six chunks of another applicant come back
    and no search with k = 100 is made. *)
Lemma person_specific_empty_name_counterexample :
  @is_count_query ascii_platform (lit "Who knows Python?") = false
  /\ @is_applicant_specific ascii_platform (lit "Who knows Python?") [ [] ]
     = Some []
  /\ @_build_context_from_query nat ascii_platform Fixtures.answering_llm
       (lit "Who knows Python?") (Fixtures.store_of Fixtures.bob_chunks)
       [ [] ]
     = ([GetRelevantDocuments (lit "Who knows Python?") 20],
        Ret Fixtures.bob_chunks)
  /\ length Fixtures.bob_chunks = 6
  /\ Forall (fun doc => ~ @belongs_to ascii_platform [] doc)
       Fixtures.bob_chunks.
Proof.
  split_and!; try (vm_compute; reflexivity).
  repeat constructor; vm_compute; discriminate.
Qed.

(** The router itself never raises and never calls the chat model. *)
Lemma router_returns `{Platform} {Score : Type} (self : RAGEngine)
    (query : str) (vectorstore : FAISS Score) (applicant_names : list str) :
  exists (t : list event) (docs : list Document),
    _build_context_from_query self query vectorstore applicant_names
    = (t, Ret docs)
    /\ forall prompt, LlmInvoke prompt ∉ t.
Proof.
  destruct (is_count_query query) eqn:Hcount.
  - exists [], [count_doc applicant_names]. split.
    + unfold _build_context_from_query. by rewrite Hcount.
    + intros prompt. apply not_elem_of_nil.
  - assert (Hcases :
      (exists N, is_applicant_specific query applicant_names = Some N
                 /\ N <> [])
      \/ (is_applicant_specific query applicant_names = None
          \/ is_applicant_specific query applicant_names = Some [])).
    { destruct (is_applicant_specific query applicant_names) as [[|c N]|];
        [right; by right | left; by eexists | right; by left]. }
    destruct Hcases as [[N [Hmatch Hne]] | Hmatch].
    + rewrite (router_person_specific self query vectorstore
                 applicant_names N) by done.
      destruct (similarity_search_with_score vectorstore query 100);
        eexists _, _; (split; [reflexivity|]);
        intros prompt Hin;
        repeat (apply elem_of_cons in Hin as [Hin|Hin]; [discriminate|]);
        by apply not_elem_of_nil in Hin.
    + rewrite (router_general self query vectorstore applicant_names)
        by done.
      destruct (get_relevant_documents vectorstore query 20);
        eexists _, _; (split; [reflexivity|]);
        intros prompt Hin;
        repeat (apply elem_of_cons in Hin as [Hin|Hin]; [discriminate|]);
        by apply not_elem_of_nil in Hin.
Qed.

(** [query], by what the router and the chat model answer. *)
Lemma query_unfold `{Platform} {Score : Type} (self : RAGEngine)
    (q : str) (vectorstore : FAISS Score) (applicant_names : list str)
    (t : list event) (docs : list Document) :
  _build_context_from_query self q vectorstore applicant_names
  = (t, Ret docs) ->
  query self q vectorstore applicant_names
  = match docs with
    | [] => (t, Ret {| result := NO_DOCUMENTS; source_documents := [] |})
    | _ =>
        let prompt := format_prompt (_build_context_text docs) q in
        (t ++ [LlmInvoke prompt],
         Ret match llm self prompt with
             | Ret content =>
                 {| result := content; source_documents := docs |}
             | Raise e =>
                 {| result := lit "Error occurred: " ++ e;
                    source_documents := [] |}
             end)
    end.
Proof.
  intros Hrouter. unfold query. rewrite Hrouter.
  unfold try_except, call, mbind, mret, Comp_bind, Comp_ret.
  destruct docs as [|doc docs].
  - by rewrite app_nil_r.
  - cbv zeta.
    destruct (llm self (format_prompt (_build_context_text (doc :: docs)) q));
      by rewrite ?app_nil_r.
Qed.

(** C6. When retrieval returns no document, [query] returns the canned
    result "No relevant documents found." with an empty source list, and
    the chat model is not invoked: the trace of [query] is the trace of
    the retrieval and holds no model call. *)
Theorem empty_retrieval_short_circuits `{Platform} {Score : Type}
    (self : RAGEngine) (q : str) (vectorstore : FAISS Score)
    (applicant_names : list str) :
  result_of (_build_context_from_query self q vectorstore applicant_names)
  = Ret [] ->
  query self q vectorstore applicant_names
  = (trace (_build_context_from_query self q vectorstore applicant_names),
     Ret {| result := lit "No relevant documents found.";
            source_documents := [] |})
  /\ forall prompt,
       LlmInvoke prompt ∉ trace (query self q vectorstore applicant_names).
Proof.
  intros Hempty.
  destruct (router_returns self q vectorstore applicant_names)
    as [t [docs [Hrouter Hquiet]]].
  rewrite Hrouter in Hempty |- *. simpl in Hempty. injection Hempty as ->.
  rewrite (query_unfold self q vectorstore applicant_names t []) by done.
  done.
Qed.

(** C6, at a general query over a store that ranks nothing. *)
Lemma empty_retrieval_short_circuits_witness :
  result_of (@_build_context_from_query nat ascii_platform
               Fixtures.answering_llm (lit "Who knows Python?")
               (Fixtures.store_of []) [lit "Jane Doe"])
  = Ret []
  /\ @query nat ascii_platform Fixtures.answering_llm
       (lit "Who knows Python?") (Fixtures.store_of []) [lit "Jane Doe"]
     = (trace (@_build_context_from_query nat ascii_platform
                 Fixtures.answering_llm (lit "Who knows Python?")
                 (Fixtures.store_of []) [lit "Jane Doe"]),
        Ret {| result := lit "No relevant documents found.";
               source_documents := [] |})
  /\ forall prompt,
       LlmInvoke prompt
       ∉ trace (@query nat ascii_platform Fixtures.answering_llm
                  (lit "Who knows Python?") (Fixtures.store_of [])
                  [lit "Jane Doe"]).
Proof.
  split; [vm_compute; reflexivity|].
  apply (@empty_retrieval_short_circuits ascii_platform nat
           Fixtures.answering_llm (lit "Who knows Python?")
           (Fixtures.store_of []) [lit "Jane Doe"]).
  vm_compute; reflexivity.
Defined.

(** C7, as the code has it. [query] never raises, whatever the search and
    the chat model do: it always returns a result with a string and a
    source list. When the chat model raises [e], the string is the error
    message "Error occurred: e" and the source list is empty. When the
    search made for the query raises, the retriever absorbs the failure
    (it prints it and answers no document), so [query] returns the canned
    "No relevant documents found." with an empty source list, which is
    what it returns for a search that succeeds with nothing. Otherwise the
    string is the model's reply and the sources are the retrieved
    documents. *)
Theorem query_always_returns_a_result `{Platform} {Score : Type}
    (self : RAGEngine) (q : str) (vectorstore : FAISS Score)
    (applicant_names : list str) :
  exists (t : list event) (r : QueryResult),
    query self q vectorstore applicant_names = (t, Ret r)
    /\ (forall docs e,
          result_of (_build_context_from_query self q vectorstore
                       applicant_names) = Ret docs ->
          docs <> [] ->
          llm self (format_prompt (_build_context_text docs) q) = Raise e ->
          r = {| result := lit "Error occurred: " ++ e;
                 source_documents := [] |})
    /\ (forall docs content,
          result_of (_build_context_from_query self q vectorstore
                       applicant_names) = Ret docs ->
          docs <> [] ->
          llm self (format_prompt (_build_context_text docs) q)
          = Ret content ->
          r = {| result := content; source_documents := docs |})
    /\ (result_of (_build_context_from_query self q vectorstore
                     applicant_names) = Ret [] ->
        r = {| result := lit "No relevant documents found.";
               source_documents := [] |})
    /\ (forall N e,
          is_count_query q = false ->
          is_applicant_specific q applicant_names = Some N -> N <> [] ->
          similarity_search_with_score vectorstore q 100 = Raise e ->
          r = {| result := lit "No relevant documents found.";
                 source_documents := [] |})
    /\ (forall e,
          is_count_query q = false ->
          is_applicant_specific q applicant_names = None
          \/ is_applicant_specific q applicant_names = Some [] ->
          get_relevant_documents vectorstore q 20 = Raise e ->
          r = {| result := lit "No relevant documents found.";
                 source_documents := [] |}).
Proof.
  destruct (router_returns self q vectorstore applicant_names)
    as [t [docs [Hrouter _]]].
  pose proof (query_unfold self q vectorstore applicant_names t docs Hrouter)
    as Hquery.
  assert (Hempty : docs = [] ->
    query self q vectorstore applicant_names
    = (t, Ret {| result := lit "No relevant documents found.";
                 source_documents := [] |})).
  { intros ->. exact Hquery. }
  destruct docs as [|doc docs].
  - exists t, {| result := lit "No relevant documents found.";
                 source_documents := [] |}.
    split; [by apply Hempty|].
    split_and!; try done.
    + intros docs e Hdocs. rewrite Hrouter in Hdocs. by injection Hdocs as <-.
    + intros docs e Hdocs. rewrite Hrouter in Hdocs. by injection Hdocs as <-.
  - cbv zeta in Hquery. eexists _, _. split; [exact Hquery|].
    split_and!.
    + intros docs' e Hdocs _ Hllm. rewrite Hrouter in Hdocs.
      injection Hdocs as <-. by rewrite Hllm.
    + intros docs' content Hdocs _ Hllm. rewrite Hrouter in Hdocs.
      injection Hdocs as <-. by rewrite Hllm.
    + intros Hdocs. by rewrite Hrouter in Hdocs.
    + intros N e Hcount Hmatch Hne Hsearch.
      rewrite (router_person_specific self q vectorstore applicant_names N)
        in Hrouter by done.
      by rewrite Hsearch in Hrouter.
    + intros e Hcount Hmatch Hsearch.
      rewrite (router_general self q vectorstore applicant_names)
        in Hrouter by done.
      by rewrite Hsearch in Hrouter.
Qed.

(** C7 as stated fails when retrieval is what fails: the string returned
    is not an error message but the canned "No relevant documents found.",
    the very result of a search that succeeds and finds nothing. A failing
    chat model does give an error message. *)
Lemma query_retrieval_failure_counterexample :
  get_relevant_documents Fixtures.broken_store (lit "Who knows Python?") 20
  = Raise (lit "index unavailable")
  /\ @query nat ascii_platform Fixtures.answering_llm
       (lit "Who knows Python?") Fixtures.broken_store [lit "Jane Doe"]
     = ([GetRelevantDocuments (lit "Who knows Python?") 20;
         Print (lit "Error retrieving documents: index unavailable")],
        Ret {| result := lit "No relevant documents found.";
               source_documents := [] |})
  /\ result_of (@query nat ascii_platform Fixtures.answering_llm
                  (lit "Who knows Python?") Fixtures.broken_store
                  [lit "Jane Doe"])
     = result_of (@query nat ascii_platform Fixtures.answering_llm
                    (lit "Who knows Python?") (Fixtures.store_of [])
                    [lit "Jane Doe"])
  /\ startswith (lit "Error occurred: ") (lit "No relevant documents found.")
     = false
  /\ result_of (@query nat ascii_platform Fixtures.failing_llm
                  (lit "Who knows Python?")
                  (Fixtures.store_of Fixtures.bob_chunks) [lit "Jane Doe"])
     = Ret {| result := lit "Error occurred: quota exceeded";
              source_documents := [] |}.
Proof. split_and!; vm_compute; reflexivity. Qed.

(** ** src/embeddings.py: passage and query framing *)

Lemma framings_differ (text : str) :
  lit "passage: " ++ text <> lit "query: " ++ text.
Proof. vm_compute. discriminate. Qed.

(** C5. [embed_documents] hands the underlying model, in one call, the
    input texts in order, each with the marker "passage: " put in front;
    [embed_query] hands it the query with the marker "query: " in front;
    both return what the model answers. For every text the two framed
    texts differ, and each starts with its own marker only. *)
Theorem e5_prefixes_passages_and_queries :
  (forall (Vector : Type) (super : HuggingFaceEmbeddings Vector)
          (texts : list str),
     E5Embeddings.embed_documents super texts
     = ([SuperEmbedDocuments (map (fun text => lit "passage: " ++ text) texts)],
        hf_embed_documents super
          (map (fun text => lit "passage: " ++ text) texts)))
  /\ (forall (texts : list str) (i : nat),
        map (fun text => lit "passage: " ++ text) texts !! i
        = (fun text => lit "passage: " ++ text) <$> texts !! i)
  /\ (forall (Vector : Type) (super : HuggingFaceEmbeddings Vector)
             (text : str),
        E5Embeddings.embed_query super text
        = ([SuperEmbedQuery (lit "query: " ++ text)],
           hf_embed_query super (lit "query: " ++ text)))
  /\ (forall text : str,
        lit "passage: " ++ text <> lit "query: " ++ text
        /\ startswith (lit "passage: ") (lit "passage: " ++ text) = true
        /\ startswith (lit "query: ") (lit "passage: " ++ text) = false
        /\ startswith (lit "query: ") (lit "query: " ++ text) = true
        /\ startswith (lit "passage: ") (lit "query: " ++ text) = false)
  /\ trace (E5Embeddings.embed_documents EmbeddingFixtures.length_model
              [lit "Python"; lit "SQL"])
     = [SuperEmbedDocuments [lit "passage: Python"; lit "passage: SQL"]]
  /\ trace (E5Embeddings.embed_query EmbeddingFixtures.length_model
              (lit "Python"))
     = [SuperEmbedQuery (lit "query: Python")].
Proof.
  split; [reflexivity|]. split; [|split; [reflexivity|split]].
  - intros texts i. apply list_lookup_fmap.
  - intros text. split; [apply framings_differ|].
    split; [apply startswith_spec; by exists text|].
    split; [reflexivity|].
    split; [apply startswith_spec; by exists text | reflexivity].
  - split; vm_compute; reflexivity.
Qed.

(** ** src/document_processor.py: batches of uploaded files *)

Section DictFacts.
Context {K V : Type} `{EqDecision K}.
Implicit Types (d : list (K * V)) (k : K) (v : V).

Lemma dict_get_set_eq d k v : Dict.get k (Dict.set k v d) = Some v.
Proof.
  induction d as [|[k' v'] d IH]; simpl.
  - by rewrite decide_True.
  - destruct (decide (k = k')) as [->|Hne]; simpl.
    + by rewrite decide_True.
    + by rewrite decide_False.
Qed.

Lemma dict_get_set_ne d k k' v :
  k <> k' -> Dict.get k' (Dict.set k v d) = Dict.get k' d.
Proof.
  intros Hne. induction d as [|[k0 v0] d IH]; simpl.
  - by rewrite decide_False.
  - destruct (decide (k = k0)) as [->|Hne0]; simpl.
    + by rewrite !decide_False.
    + destruct (decide (k' = k0)); done.
Qed.

End DictFacts.

Section IngestionFacts.
Context `{Platform} (readers : Readers).
Implicit Types (file : UploadedFile) (files : list UploadedFile)
  (cvs : list (str * str)).

Lemma extract_one_unfold file cvs :
  DocumentProcessor.extract_one readers file cvs
  = (file_trace readers file, Ret (keep readers cvs file)).
Proof.
  unfold DocumentProcessor.extract_one, file_trace, keep, extraction,
    read_event, warning, DocumentProcessor.extract_text_from_pdf,
    DocumentProcessor.extract_text_from_docx.
  destruct (decide (type file = PDF_MIME)).
  - unfold try_except, call, print, raise, mbind, mret, Comp_bind, Comp_ret,
      call.
    by destruct (pdf_pages readers file).
  - destruct (decide (type file = DOCX_MIME)); [|done].
    unfold try_except, call, print, raise, mbind, mret, Comp_bind, Comp_ret,
      call.
    by destruct (docx_paragraphs readers file).
Qed.

Lemma extract_loop_unfold files cvs :
  DocumentProcessor.extract_loop readers files cvs
  = (concat (map (file_trace readers) files),
     Ret (fold_left (keep readers) files cvs)).
Proof.
  revert cvs. induction files as [|file files IH]; intros cvs; [done|].
  cbn [DocumentProcessor.extract_loop]. rewrite extract_one_unfold.
  unfold mbind, Comp_bind. by rewrite IH.
Qed.

Lemma keep_skipped file cvs :
  succeeded readers file = false -> keep readers cvs file = cvs.
Proof.
  unfold succeeded, keep. by destruct (extraction readers file) as [[]|].
Qed.

Lemma fold_keep_succeeded files cvs :
  fold_left (keep readers) (filter (fun file => succeeded readers file) files)
    cvs
  = fold_left (keep readers) files cvs.
Proof.
  revert cvs. induction files as [|file files IH]; intros cvs; [done|].
  rewrite filter_cons. destruct (succeeded readers file) eqn:Hs; simpl.
  - apply IH.
  - rewrite keep_skipped by done. apply IH.
Qed.

(** Later files that do not yield the same applicant name leave an entry
    as it is. *)
Lemma fold_keep_other files cvs (applicant_name : str) :
  Forall (fun file => succeeded readers file = true ->
                      extract_person_name (name file) <> applicant_name)
         files ->
  Dict.get applicant_name (fold_left (keep readers) files cvs)
  = Dict.get applicant_name cvs.
Proof.
  revert cvs. induction files as [|file files IH]; intros cvs Hall; [done|].
  apply Forall_cons in Hall as [Hfile Hall]. simpl. rewrite IH by done.
  unfold keep, succeeded in *.
  destruct (extraction readers file) as [[text|e]|]; try done.
  apply dict_get_set_ne. by apply Hfile.
Qed.

End IngestionFacts.

(** C8. [extract_text_from_files] never raises, whatever the batch. A
    file whose extraction fails is skipped with a warning printed for it,
    a file of an unsupported format is skipped with nothing printed, and
    the files after it are still processed: the mapping returned is the
    one the successfully processed files alone give, it has an entry for
    the name of every successfully processed file, and that entry is the
    file's text unless a later successful file has the same name. *)
Theorem extraction_failures_do_not_abort_the_batch :
  (forall (P : Platform) (readers : Readers) (files : list UploadedFile),
     exists cvs : list (str * str),
       DocumentProcessor.extract_text_from_files readers files
       = (concat (map (file_trace readers) files), Ret cvs)
       /\ result_of (DocumentProcessor.extract_text_from_files readers
                       (filter (fun file => succeeded readers file) files))
          = Ret cvs
       /\ (forall before file after text,
             files = before ++ file :: after ->
             extraction readers file = Some (Ret text) ->
             Forall (fun later =>
                       succeeded readers later = true ->
                       extract_person_name (name later)
                       <> extract_person_name (name file)) after ->
             Dict.get (extract_person_name (name file)) cvs = Some text)
       /\ (forall file,
             file ∈ files -> succeeded readers file = true ->
             is_Some (Dict.get (extract_person_name (name file)) cvs))
       /\ (forall file e,
             file ∈ files -> extraction readers file = Some (Raise e) ->
             warning file e
             ∈ trace (DocumentProcessor.extract_text_from_files readers
                        files))
       /\ (forall file,
             extraction readers file = None -> file_trace readers file = []))
  /\ @DocumentProcessor.extract_text_from_files ascii_platform
       IngestionFixtures.readers
       [IngestionFixtures.jane_pdf; IngestionFixtures.broken_pdf;
        IngestionFixtures.notes_txt; IngestionFixtures.john_docx]
     = ([ReadPdf IngestionFixtures.jane_pdf;
         ReadPdf IngestionFixtures.broken_pdf;
         Print (lit "Warning: Could not process file Bob.pdf: Error reading PDF file: EOF marker not found");
         ReadDocx IngestionFixtures.john_docx],
        Ret [(lit "Jane Doe", lit "Python, SQL" ++ NL);
             (lit "John Smith", lit "Go, Rust")]).
Proof.
  split; [|vm_compute; reflexivity].
  intros P readers files.
  exists (fold_left (keep readers) files []).
  unfold DocumentProcessor.extract_text_from_files.
  rewrite !extract_loop_unfold. split; [done|].
  split; [cbn [result_of snd]; by rewrite fold_keep_succeeded|].
  assert (Hentry : forall before file after text,
    files = before ++ file :: after ->
    extraction readers file = Some (Ret text) ->
    Forall (fun later =>
              succeeded readers later = true ->
              extract_person_name (name later)
              <> extract_person_name (name file)) after ->
    Dict.get (extract_person_name (name file))
      (fold_left (keep readers) files []) = Some text).
  { intros before file after text -> Hfile Hafter.
    rewrite fold_left_app. cbn [fold_left].
    rewrite fold_keep_other by done.
    unfold keep at 1. rewrite Hfile. apply dict_get_set_eq. }
  split; [exact Hentry|]. split; [|split].
  - (* every successful file has an entry: the last file of its name *)
    induction files as [|file0 files IH] using rev_ind.
    { intros file Hin. by apply elem_of_nil in Hin. }
    intros file Hin Hok. rewrite fold_left_app. cbn [fold_left].
    destruct (decide (succeeded readers file0 = true
                      /\ extract_person_name (name file0)
                         = extract_person_name (name file)))
      as [[Hok0 Heq]|Hother].
    + unfold keep at 1. unfold succeeded in Hok0.
      destruct (extraction readers file0) as [[text|e]|]; try done.
      rewrite Heq, dict_get_set_eq. by eexists.
    + apply elem_of_app in Hin as [Hin|Hin].
      * assert (Hget : Dict.get (extract_person_name (name file))
                         (keep readers (fold_left (keep readers) files [])
                            file0)
                       = Dict.get (extract_person_name (name file))
                           (fold_left (keep readers) files [])).
        { unfold keep at 1. unfold succeeded in Hother.
          destruct (extraction readers file0) as [[text|e]|]; try done.
          apply dict_get_set_ne. intros Heq. apply Hother. by split. }
        rewrite Hget. apply IH; [|done|done].
        intros before f after text -> Hf Hafter.
        rewrite fold_left_app. cbn [fold_left].
        rewrite fold_keep_other by done.
        unfold keep at 1. rewrite Hf. apply dict_get_set_eq.
      * apply list_elem_of_singleton in Hin as ->.
        exfalso. apply Hother. by split.
  - intros file e Hin Hfail. cbn [trace fst].
    apply list_elem_of_In, in_concat. exists (file_trace readers file). split.
    + apply in_map. by apply list_elem_of_In.
    + unfold file_trace. rewrite Hfail. right. by left.
  - intros file Hnone. unfold file_trace. by rewrite Hnone.
Qed.

(** ** src/vectorstore.py: building the index *)

Section IndexFacts.
Context {Score : Type} (self : VectorStoreManager Score).

(** Cutting the texts into documents calls nothing outside. *)
Lemma create_documents_loop_quiet (items : list (str * str))
    (all_documents : list Document) :
  trace (create_documents_loop self items all_documents) = [].
Proof.
  revert all_documents.
  induction items as [|[applicant_name cv_text] items IH];
    intros all_documents; [done|].
  cbn [create_documents_loop]. unfold create_documents.
  destruct (split_text self cv_text) as [chunks|e]; [|done].
  unfold mbind, mret, Comp_bind, Comp_ret.
  specialize (IH (all_documents ++
    map (fun chunk => {| page_content := chunk;
                         metadata := {[ lit "applicant" := applicant_name ]} |})
        chunks)).
  destruct (create_documents_loop self items _) as [t o]. simpl in *.
  by subst.
Qed.

Lemma create_vectorstore_never_raises (applicant_cvs : list (str * str)) :
  exists t index, create_vectorstore self applicant_cvs = (t, Ret index).
Proof.
  unfold create_vectorstore, create_documents_from_cvs.
  destruct (create_documents_loop self applicant_cvs []) as [t [docs|e]].
  - destruct docs as [|doc docs]; [by eexists _, _|].
    unfold try_except, call, print, mbind, mret, Comp_bind, Comp_ret, call.
    destruct (from_documents self (doc :: docs)); by eexists _, _.
  - by eexists _, _.
Qed.

End IndexFacts.

(** C9, as the code has it. When the CVs yield zero chunks (an empty
    mapping, for one), building the index fails as a whole by returning
    [None]: [create_vectorstore] raises no error, prints nothing, does not
    call the index builder, and returns no index, partial or other. [None]
    is also what it returns when the build raises. *)
Theorem zero_chunks_give_no_index {Score : Type}
    (self : VectorStoreManager Score) (applicant_cvs : list (str * str)) :
  result_of (create_documents_from_cvs self applicant_cvs) = Ret [] ->
  create_vectorstore self applicant_cvs = ([], Ret None)
  /\ create_vectorstore self [] = ([], Ret None)
  /\ (forall documents,
        FaissFromDocuments documents
        ∉ trace (create_vectorstore self applicant_cvs))
  /\ (forall index,
        result_of (create_vectorstore self applicant_cvs) <> Ret (Some index)).
Proof.
  intros Hzero.
  assert (Hbuild : create_vectorstore self applicant_cvs = ([], Ret None)).
  { unfold create_vectorstore.
    pose proof (create_documents_loop_quiet self applicant_cvs []) as Hquiet.
    unfold create_documents_from_cvs in *.
    destruct (create_documents_loop self applicant_cvs []) as [t o].
    simpl in Hzero, Hquiet. by subst. }
  rewrite Hbuild. split_and!; [done | done | | done].
  intros documents. apply not_elem_of_nil.
Qed.

(** C9, at a mapping whose only CV is blank. *)
Lemma zero_chunks_give_no_index_witness :
  result_of (create_documents_from_cvs IndexFixtures.manager
               [(lit "Jane Doe", lit "   ")]) = Ret []
  /\ create_vectorstore IndexFixtures.manager [(lit "Jane Doe", lit "   ")]
     = ([], Ret None)
  /\ create_vectorstore IndexFixtures.manager [] = ([], Ret None)
  /\ (forall documents,
        FaissFromDocuments documents
        ∉ trace (create_vectorstore IndexFixtures.manager
                   [(lit "Jane Doe", lit "   ")]))
  /\ (forall index,
        result_of (create_vectorstore IndexFixtures.manager
                     [(lit "Jane Doe", lit "   ")]) <> Ret (Some index)).
Proof.
  split; [vm_compute; reflexivity|].
  apply (@zero_chunks_give_no_index nat IndexFixtures.manager
           [(lit "Jane Doe", lit "   ")]).
  vm_compute; reflexivity.
Defined.

(** C9 as stated fails: on the empty corpus [create_vectorstore] does not
    fail with an error, it returns [None] normally and silently, the value
    it also returns when the index builder raises. *)
Lemma empty_corpus_returns_none_counterexample :
  create_vectorstore IndexFixtures.manager [] = ([], Ret None)
  /\ (forall msg,
        result_of (create_vectorstore IndexFixtures.manager [])
        <> Raise msg)
  /\ result_of (create_vectorstore IndexFixtures.manager_without_model
                  [(lit "Jane Doe", lit "Python")])
     = Ret None.
Proof. split_and!; [done | done | vm_compute; reflexivity]. Qed.

(** ** utils/helpers.py: clean_text *)

(** C10. [clean_text] is not idempotent: whitespace is normalised before
    null and replacement characters are removed, so a null character that
    stands alone between two spaces leaves a double space behind, which a
    second application collapses. *)
Theorem clean_text_twice_differs_after_null :
  clean_text (lit "a " ++ [0%N] ++ lit " b") = lit "a  b"
  /\ clean_text (lit "a  b") = lit "a b"
  /\ clean_text (clean_text (lit "a " ++ [0%N] ++ lit " b"))
     <> clean_text (lit "a " ++ [0%N] ++ lit " b")
  /\ clean_text (clean_text (lit "a " ++ [65533%N] ++ lit " b"))
     <> clean_text (lit "a " ++ [65533%N] ++ lit " b").
Proof.
  split_and!; [vm_compute; reflexivity | vm_compute; reflexivity | |];
    vm_compute; discriminate.
Qed.

Section CleanTextFacts.
Implicit Types (s acc w : str) (words : list str) (c : N).

Lemma split_from_words acc s :
  Forall (fun c => isspace c = false) acc ->
  Forall word (split_from acc s).
Proof.
  revert acc. induction s as [|c s IH]; intros acc Hacc; simpl.
  - destruct acc as [|a acc]; [constructor|].
    constructor; [by split | constructor].
  - destruct (isspace c) eqn:Hc.
    + destruct acc as [|a acc].
      * apply IH. constructor.
      * constructor; [done|]. apply IH. constructor.
    + apply IH, Forall_app. split; [done|]. by repeat constructor.
Qed.

Lemma split_from_chars acc s w c :
  w ∈ split_from acc s -> c ∈ w -> c ∈ acc \/ c ∈ s.
Proof.
  revert acc. induction s as [|d s IH]; intros acc Hw Hc; simpl in Hw.
  - destruct acc; [by apply elem_of_nil in Hw|].
    apply list_elem_of_singleton in Hw as ->. by left.
  - destruct (isspace d).
    + destruct acc as [|a acc].
      * destruct (IH [] Hw Hc) as [Hin|Hin]; [by left|].
        right. by apply elem_of_cons; right.
      * apply elem_of_cons in Hw as [->|Hw]; [by left|].
        destruct (IH [] Hw Hc) as [Hin|Hin]; [by apply elem_of_nil in Hin|].
        right. by apply elem_of_cons; right.
    + destruct (IH (acc ++ [d]) Hw Hc) as [Hin|Hin].
      * apply elem_of_app in Hin as [Hin|Hin]; [by left|].
        apply list_elem_of_singleton in Hin as ->.
        right. by apply elem_of_cons; left.
      * right. by apply elem_of_cons; right.
Qed.

Lemma split_from_app_word acc w s :
  Forall (fun c => isspace c = false) w ->
  split_from acc (w ++ s) = split_from (acc ++ w) s.
Proof.
  revert acc. induction w as [|c w IH]; intros acc Hw; simpl.
  - by rewrite app_nil_r.
  - apply Forall_cons in Hw as [Hc Hw]. rewrite Hc, IH by done.
    by rewrite <- app_assoc.
Qed.

(** Splitting what [join] put together with single spaces gives the
    words back. *)
Lemma split_join words :
  Forall word words -> split (join [32%N] words) = words.
Proof.
  unfold split. induction words as [|p words IH]; intros Hwords; [done|].
  apply Forall_cons in Hwords as [[Hne Hp] Hwords].
  destruct words as [|q words].
  - cbn [join]. rewrite <- (app_nil_r p) at 1.
    rewrite split_from_app_word by done. simpl. by destruct p.
  - change (join [32%N] (p :: q :: words))
      with (p ++ 32%N :: join [32%N] (q :: words)).
    rewrite split_from_app_word by done.
    cbn [app split_from].
    replace (isspace 32%N) with true by reflexivity.
    rewrite IH by done. by destruct p.
Qed.

Lemma join_chars sep words c :
  c ∈ join sep words -> c ∈ sep \/ exists w, w ∈ words /\ c ∈ w.
Proof.
  induction words as [|p words IH]; intros Hc.
  - by apply elem_of_nil in Hc.
  - destruct words as [|q words].
    + right. exists p. split; [by left | done].
    + cbn [join] in Hc. apply elem_of_app in Hc as [Hc|Hc].
      * right. exists p. split; [by left | done].
      * apply elem_of_app in Hc as [Hc|Hc]; [by left|].
        destruct (IH Hc) as [Hsep|[w [Hw Hcw]]]; [by left|].
        right. exists w. split; [by right | done].
Qed.

Lemma join_head sep words c :
  Forall word words -> head (join sep words) = Some c -> isspace c = false.
Proof.
  intros Hwords Hc. destruct words as [|p words]; [done|].
  apply Forall_cons in Hwords as [[Hne Hp] _].
  destruct p as [|d p]; [done|]. apply Forall_cons in Hp as [Hd _].
  destruct words; simpl in Hc; by injection Hc as <-.
Qed.

Lemma join_last sep words c :
  Forall word words -> last (join sep words) = Some c -> isspace c = false.
Proof.
  induction words as [|p words IH]; intros Hwords Hc; [done|].
  apply Forall_cons in Hwords as [[Hne Hp] Hwords].
  destruct words as [|q words].
  - cbn [join] in Hc. apply last_Some_elem_of in Hc.
    by eapply (proj1 (Forall_forall _ _) Hp).
  - change (join sep (p :: q :: words))
      with (p ++ sep ++ join sep (q :: words)) in Hc.
    rewrite !last_app in Hc.
    destruct (last (join sep (q :: words))) as [d|] eqn:Hlast.
    + apply IH; [done | exact Hc].
    + apply last_None in Hlast.
      apply Forall_cons in Hwords as [[Hq _] _].
      destruct q; [done|]. destruct words; discriminate.
Qed.

Lemma lstrip_id s :
  (forall c, head s = Some c -> isspace c = false) -> lstrip s = s.
Proof.
  destruct s as [|c s]; [done|]. intros Hhead. simpl.
  by rewrite (Hhead c).
Qed.

Lemma strip_id s :
  (forall c, head s = Some c -> isspace c = false) ->
  (forall c, last s = Some c -> isspace c = false) ->
  strip s = s.
Proof.
  intros Hhead Hlast. unfold strip, rstrip. rewrite (lstrip_id s) by done.
  rewrite lstrip_id; [apply reverse_involutive|].
  intros c Hc. apply Hlast. by rewrite <- (reverse_involutive s), last_reverse.
Qed.

Lemma replace_absent c s : c ∉ s -> replace [c] [] s = s.
Proof.
  unfold replace. induction s as [|d s IH]; intros Hc; [done|].
  apply not_elem_of_cons in Hc as [Hne Hc].
  cbn [replace_from startswith]. apply N.eqb_neq in Hne. rewrite Hne.
  cbn [andb app]. by rewrite IH.
Qed.

Lemma artifact_free_normal_form s :
  artifact_free s -> artifact_free (join [32%N] (split s)).
Proof.
  intros [Hnull Hrepl].
  split; intros Hin; apply join_chars in Hin as [Hin|[w [Hw Hin]]].
  - by apply list_elem_of_singleton in Hin.
  - destruct (split_from_chars [] s w _ Hw Hin) as [H|H];
      [by apply elem_of_nil in H | done].
  - by apply list_elem_of_singleton in Hin.
  - destruct (split_from_chars [] s w _ Hw Hin) as [H|H];
      [by apply elem_of_nil in H | done].
Qed.

(** Without artifacts to remove, [clean_text] is whitespace
    normalisation. *)
Lemma clean_text_artifact_free s :
  artifact_free s -> clean_text s = join [32%N] (split s).
Proof.
  intros Hfree. destruct s as [|c s]; [done|].
  destruct (artifact_free_normal_form _ Hfree) as [Hnull Hrepl].
  unfold clean_text. change (lit " ") with [32%N].
  rewrite (replace_absent 0) by done.
  rewrite (replace_absent 65533) by done.
  assert (Hwords : Forall word (split (c :: s))).
  { apply split_from_words. constructor. }
  apply strip_id; intros d Hd.
  - by apply (join_head [32%N] (split (c :: s))).
  - by apply (join_last [32%N] (split (c :: s))).
Qed.

(** What remains of the idempotence of C10: a second application changes
    nothing when the text holds no null and no replacement character. *)
Lemma clean_text_idempotent_artifact_free s :
  artifact_free s -> clean_text (clean_text s) = clean_text s.
Proof.
  intros Hfree. rewrite (clean_text_artifact_free s) by done.
  rewrite clean_text_artifact_free by by apply artifact_free_normal_form.
  rewrite split_join; [done|]. apply split_from_words. constructor.
Qed.

End CleanTextFacts.

(** * Further properties of the code *)

(** ** Whitespace stripping *)

Section StripFacts.
Implicit Types (s p q : str) (c : N).

Lemma lstrip_decompose s :
  exists p, s = p ++ lstrip s
    /\ Forall (fun c => isspace c = true) p
    /\ forall c, head (lstrip s) = Some c -> isspace c = false.
Proof.
  induction s as [|d s (p & Heq & Hp & Hhead)]; simpl.
  - by exists [].
  - destruct (isspace d) eqn:Hd.
    + exists (d :: p). split_and!; [by rewrite Heq at 1 | by constructor | done].
    + exists []. split_and!; [done | constructor |].
      intros c [= <-]. done.
Qed.

Lemma rstrip_decompose s :
  exists q, s = rstrip s ++ q
    /\ Forall (fun c => isspace c = true) q
    /\ forall c, last (rstrip s) = Some c -> isspace c = false.
Proof.
  destruct (lstrip_decompose (reverse s)) as (p & Heq & Hp & Hhead).
  exists (reverse p). unfold rstrip. split_and!.
  - rewrite <- reverse_app, <- Heq. by rewrite reverse_involutive.
  - by apply Forall_reverse.
  - intros c. rewrite last_reverse. apply Hhead.
Qed.

(** [strip] removes a run of whitespace at each end and nothing else, and
    what it leaves neither starts nor ends with whitespace. *)
Lemma strip_decompose s :
  exists p q, s = p ++ strip s ++ q
    /\ Forall (fun c => isspace c = true) p
    /\ Forall (fun c => isspace c = true) q
    /\ (forall c, head (strip s) = Some c -> isspace c = false)
    /\ (forall c, last (strip s) = Some c -> isspace c = false).
Proof.
  destruct (lstrip_decompose s) as (p & Hs & Hp & Hhead).
  destruct (rstrip_decompose (lstrip s)) as (q & Hl & Hq & Hlast).
  exists p, q. unfold strip. split_and!; [| done | done | | done].
  - by rewrite <- Hl.
  - intros c Hc. apply Hhead. rewrite Hl.
    destruct (rstrip (lstrip s)); [done|]. exact Hc.
Qed.

Lemma strip_nonempty s :
  strip s <> [] <-> exists c, c ∈ s /\ isspace c = false.
Proof.
  destruct (strip_decompose s) as (p & q & Heq & Hp & Hq & Hhead & _).
  split.
  - intros Hne. destruct (strip s) as [|c r] eqn:Hstrip; [done|].
    exists c. split; [|by apply Hhead].
    rewrite Heq. apply elem_of_app. right. apply elem_of_app. left. by left.
  - intros (c & Hin & Hc) Hempty. rewrite Hempty in Heq. simpl in Heq.
    rewrite Heq in Hin. apply elem_of_app in Hin as [Hin|Hin].
    + rewrite Forall_forall in Hp. rewrite (Hp c Hin) in Hc. done.
    + rewrite Forall_forall in Hq. rewrite (Hq c Hin) in Hc. done.
Qed.

End StripFacts.

(** ** utils/helpers.py: names, keys and display helpers *)

(** X1. Whatever the file name and the platform's [splitext], the person
    name derived from it is the root of the file name with whitespace
    removed at both ends and only there: it neither starts nor ends with
    a whitespace character. *)
Theorem extract_person_name_is_trimmed_root :
  forall (P : Platform) (filename : str),
    (exists before after,
       fst (os_path_splitext filename)
       = before ++ extract_person_name filename ++ after
       /\ Forall (fun c => isspace c = true) before
       /\ Forall (fun c => isspace c = true) after)
    /\ (forall c, head (extract_person_name filename) = Some c ->
                  isspace c = false)
    /\ (forall c, last (extract_person_name filename) = Some c ->
                  isspace c = false).
Proof.
  intros P filename. unfold extract_person_name.
  destruct (os_path_splitext filename) as [root ext]. cbn [fst].
  destruct (strip_decompose root) as (p & q & Heq & Hp & Hq & Hhead & Hlast).
  split; [by exists p, q | by split].
Qed.

(** X2. The API key is accepted exactly when the environment variable is
    set and its value holds at least one character that is not
    whitespace: an unset, empty or blank key is rejected. *)
Theorem validate_api_key_iff_not_blank :
  forall key : option str,
    validate_api_key key = true
    <-> exists value c, key = Some value /\ c ∈ value /\ isspace c = false.
Proof.
  intros [value|]; simpl.
  - destruct value as [|d value].
    + split; [done|]. intros (v & c & [= <-] & Hin & _).
      by apply elem_of_nil in Hin.
    + pose proof (strip_nonempty (d :: value)) as Hstrip.
      destruct (strip (d :: value)) as [|e r].
      * split; [done|]. intros (v & c & [= <-] & Hin & Hc).
        exfalso. apply (proj2 Hstrip); [by exists c | done].
      * split; [|done]. intros _.
        destruct (proj1 Hstrip) as (c & Hin & Hc); [done|].
        by exists (d :: value), c.
  - split; [done|]. by intros (v & c & [=] & _).
Qed.

Lemma occurs_in_app_l (w x y : str) : occurs_in w x -> occurs_in w (x ++ y).
Proof.
  intros (a & b & ->). exists a, (b ++ y). by rewrite <- !app_assoc.
Qed.

Lemma occurs_in_app_r (w x y : str) : occurs_in w y -> occurs_in w (x ++ y).
Proof.
  intros (a & b & ->). exists (x ++ a), b. by rewrite <- !app_assoc.
Qed.

Lemma occurs_in_self (w : str) : occurs_in w w.
Proof. exists [], []. by rewrite app_nil_r. Qed.

(** Every part occurs in what [join] builds. *)
Lemma join_occurs (sep : str) (parts : list str) (w : str) :
  w ∈ parts -> occurs_in w (join sep parts).
Proof.
  induction parts as [|p parts IH]; intros Hin.
  - by apply elem_of_nil in Hin.
  - destruct parts as [|q parts].
    + apply list_elem_of_singleton in Hin as ->. apply occurs_in_self.
    + change (join sep (p :: q :: parts))
        with (p ++ sep ++ join sep (q :: parts)).
      apply elem_of_cons in Hin as [->|Hin].
      * apply occurs_in_app_l, occurs_in_self.
      * by apply occurs_in_app_r, occurs_in_app_r, IH.
Qed.

Lemma slice_to_minus_one {A} (init : list A) (x : A) :
  slice_to (-1) (init ++ [x]) = init.
Proof.
  unfold slice_to. replace (0 <=? -1)%Z with false by reflexivity.
  rewrite length_app. cbn [length].
  replace (length init + 1 - Z.to_nat (- -1)) with (length init)
    by (change (Z.to_nat (- -1)) with 1; lia).
  apply take_app_length.
Qed.

(** X3. Without applicants the display string is "No applicants";
    otherwise every applicant of the list is named in it. *)
Theorem format_applicant_list_names_everyone :
  format_applicant_list [] = lit "No applicants"
  /\ forall (applicant_names : list str) (applicant : str),
       applicant ∈ applicant_names ->
       occurs_in applicant (format_applicant_list applicant_names).
Proof.
  split; [done|]. intros names n Hin.
  destruct names as [|a [|b [|c rest]]].
  - by apply elem_of_nil in Hin.
  - apply list_elem_of_singleton in Hin as ->. apply occurs_in_self.
  - cbn [format_applicant_list].
    apply elem_of_cons in Hin as [->|Hin].
    + apply occurs_in_app_l, occurs_in_self.
    + apply list_elem_of_singleton in Hin as ->.
      apply occurs_in_app_r, occurs_in_app_r, occurs_in_self.
  - cbn [format_applicant_list].
    assert (Hlast : is_Some (last (a :: b :: c :: rest)))
      by by apply last_is_Some.
    destruct Hlast as [z Hz]. apply last_Some in Hz as [init Hinit].
    rewrite Hinit in *. rewrite slice_to_minus_one, last_snoc.
    apply elem_of_app in Hin as [Hin|Hin].
    + by apply occurs_in_app_l, join_occurs.
    + apply list_elem_of_singleton in Hin as ->.
      apply occurs_in_app_r, occurs_in_app_r, occurs_in_self.
Qed.

Lemma before_last_Some (c : N) (s p : str) :
  before_last c s = Some p -> exists rest, s = p ++ c :: rest /\ c ∉ rest.
Proof.
  revert p. induction s as [|x s IH]; intros p Hp; [done|]. simpl in Hp.
  destruct (before_last c s) as [p'|] eqn:Hrec.
  - injection Hp as <-. destruct (IH p' eq_refl) as (rest & -> & Hrest).
    by exists rest.
  - destruct (x =? c)%N eqn:Hx; [|done]. injection Hp as <-.
    apply N.eqb_eq in Hx as ->. exists s. split; [done|].
    clear IH. induction s as [|y s IHs]; [apply not_elem_of_nil|].
    simpl in Hrec. destruct (before_last c s); [done|].
    destruct (y =? c)%N eqn:Hy; [done|]. apply N.eqb_neq in Hy.
    apply not_elem_of_cons. split; [done | by apply IHs].
Qed.

Lemma before_last_None (c : N) (s : str) :
  before_last c s = None -> c ∉ s.
Proof.
  induction s as [|y s IHs]; intros Hnone; [apply not_elem_of_nil|].
  simpl in Hnone. destruct (before_last c s); [done|].
  destruct (y =? c)%N eqn:Hy; [done|]. apply N.eqb_neq in Hy.
  apply not_elem_of_cons. split; [done | by apply IHs].
Qed.

Lemma slice_to_prefix {A} (k : Z) (l : list A) :
  exists rest, l = slice_to k l ++ rest.
Proof.
  unfold slice_to. destruct (0 <=? k)%Z; eexists; symmetry; apply take_drop.
Qed.

Lemma slice_to_length {A} (k : Z) (l : list A) :
  (0 <= k)%Z -> length (slice_to k l) <= Z.to_nat k.
Proof.
  intros Hk. unfold slice_to. rewrite (proj2 (Z.leb_le _ _)) by done.
  rewrite length_take. lia.
Qed.

(** X4. A text no longer than the limit is returned as it is. A longer
    text is cut to its first [max_length] characters, cut again before
    the last space of that piece if it holds one, and "..." is appended:
    the result is a prefix of the text followed by "...", so it has at
    most [max_length + 3] characters (for a limit that is not negative):
    up to three more than the limit. *)
Theorem truncate_text_is_a_prefix_with_ellipsis :
  forall (text : str) (max_length : Z),
    ((Z.of_nat (length text) <= max_length)%Z ->
     truncate_text text (Some max_length) = text)
    /\ ((max_length < Z.of_nat (length text))%Z ->
        exists kept dropped,
          truncate_text text (Some max_length) = kept ++ lit "..."
          /\ text = kept ++ dropped
          /\ (slice_to max_length text = kept /\ 32%N ∉ kept
              \/ exists tail, slice_to max_length text = kept ++ 32%N :: tail
                              /\ 32%N ∉ tail)
          /\ ((0 <= max_length)%Z ->
              length kept <= Z.to_nat max_length
              /\ length (truncate_text text (Some max_length))
                 <= Z.to_nat max_length + 3)).
Proof.
  intros text m.
  change (truncate_text text (Some m))
    with (if (Z.of_nat (length text) <=? m)%Z then text
          else rsplit1_head 32%N (slice_to m text) ++ lit "...").
  split.
  - intros Hle. by rewrite (proj2 (Z.leb_le _ _)).
  - intros Hlt. rewrite (proj2 (Z.leb_gt _ _)) by done.
    destruct (slice_to_prefix m text) as [rest Hrest].
    unfold rsplit1_head.
    destruct (before_last 32%N (slice_to m text)) as [p|] eqn:Hcut;
      simpl default.
    + destruct (before_last_Some _ _ _ Hcut) as (tail & Hslice & Htail).
      exists p, (32%N :: tail ++ rest). split_and!; [done | | by right; exists tail |].
      * rewrite Hrest at 1. rewrite Hslice. by rewrite <- app_assoc.
      * intros Hm. pose proof (slice_to_length m text Hm) as Hlen.
        rewrite Hslice, length_app in Hlen. simpl in Hlen.
        rewrite length_app. change (length (lit "...")) with 3. lia.
    + exists (slice_to m text), rest. split_and!; [done | done | |].
      * left. split; [done | by apply before_last_None].
      * intros Hm. pose proof (slice_to_length m text Hm) as Hlen.
        rewrite length_app. change (length (lit "...")) with 3. lia.
Qed.

(** ** utils/helpers.py: what clean_text guarantees *)

Section CleanTextInvariants.
Implicit Types (s acc w : str) (words : list str) (c : N).

(** Removing one character by [replace] is filtering it out. *)
Lemma replace_single_char c s :
  replace [c] [] s = filter (fun x => x <> c) s.
Proof.
  unfold replace. induction s as [|d s IH]; [done|].
  cbn [replace_from startswith length Nat.sub app].
  destruct (c =? d)%N eqn:Hcd; cbn [andb].
  - apply N.eqb_eq in Hcd as ->. by rewrite filter_cons_False, IH by naive_solver.
  - apply N.eqb_neq in Hcd. by rewrite filter_cons_True, IH by naive_solver.
Qed.

Lemma concat_split_from acc s :
  concat (split_from acc s)
  = acc ++ filter (fun c => isspace c = false) s.
Proof.
  revert acc. induction s as [|c s IH]; intros acc.
  - simpl. destruct acc; simpl; by rewrite ?app_nil_r.
  - cbn [split_from]. destruct (isspace c) eqn:Hc.
    + rewrite filter_cons_False by by rewrite Hc.
      destruct acc as [|a acc]; [apply IH|].
      cbn [concat]. by rewrite IH.
    + rewrite filter_cons_True by done. rewrite IH.
      by rewrite <- app_assoc.
Qed.

Lemma filter_join_words words :
  Forall word words ->
  filter (fun c => isspace c = false) (join [32%N] words) = concat words.
Proof.
  induction words as [|p words IH]; intros Hwords; [done|].
  apply Forall_cons in Hwords as [[_ Hp] Hwords].
  assert (Hkeep : filter (fun c => isspace c = false) p = p).
  { clear -Hp. induction Hp as [|c p Hc Hp IH]; [done|].
    by rewrite filter_cons_True, IH. }
  destruct words as [|q words].
  - simpl. by rewrite app_nil_r.
  - change (join [32%N] (p :: q :: words))
      with (p ++ 32%N :: join [32%N] (q :: words)).
    rewrite filter_app, Hkeep, filter_cons_False by done.
    by rewrite IH.
Qed.

(** Whitespace normalisation keeps the characters that are not
    whitespace, in order. *)
Lemma normalise_keeps_nonspace s :
  filter (fun c => isspace c = false) (join [32%N] (split s))
  = filter (fun c => isspace c = false) s.
Proof.
  rewrite filter_join_words by (apply split_from_words; constructor).
  apply (concat_split_from [] s).
Qed.

Lemma normalise_whitespace_is_space s c :
  c ∈ join [32%N] (split s) -> isspace c = true -> c = 32%N.
Proof.
  intros Hin Hc. apply join_chars in Hin as [Hin|(w & Hw & Hin)].
  - by apply list_elem_of_singleton in Hin.
  - pose proof (split_from_words [] s ltac:(constructor)) as Hwords.
    rewrite Forall_forall in Hwords. destruct (Hwords w Hw) as [_ Hword].
    rewrite Forall_forall in Hword. rewrite (Hword c Hin) in Hc. done.
Qed.

Lemma visible_nonspace c : visible c -> isspace c = false.
Proof.
  unfold visible. destruct (isspace c); [|done]. by intros [].
Qed.

Lemma visible_not_artifact c : visible c -> c <> 0%N /\ c <> 65533%N.
Proof.
  unfold visible. intros Hv.
  apply andb_prop_elim in Hv as [Hv Hrepl].
  apply andb_prop_elim in Hv as [_ Hnull].
  apply negb_prop_elim in Hnull, Hrepl. split.
  - intros ->. by apply Hnull.
  - intros ->. by apply Hrepl.
Qed.

Lemma whitespace_not_visible s :
  Forall (fun c => isspace c = true) s -> filter (fun x => visible x) s = [].
Proof.
  induction 1 as [|c s Hc Hs IH]; [done|].
  rewrite filter_cons_False; [done|].
  intros Hv. apply visible_nonspace in Hv. congruence.
Qed.

Lemma clean_text_unfold c s :
  exists before after,
    filter (fun x => x <> 65533%N)
      (filter (fun x => x <> 0%N) (join [32%N] (split (c :: s))))
    = before ++ clean_text (c :: s) ++ after
    /\ Forall (fun c => isspace c = true) before
    /\ Forall (fun c => isspace c = true) after
    /\ (forall d, head (clean_text (c :: s)) = Some d -> isspace d = false)
    /\ (forall d, last (clean_text (c :: s)) = Some d -> isspace d = false).
Proof.
  unfold clean_text. change (lit " ") with [32%N].
  rewrite !replace_single_char. apply strip_decompose.
Qed.

End CleanTextInvariants.

(** X5. Whatever the text, the result of [clean_text] holds no null and
    no replacement character, neither starts nor ends with whitespace,
    holds no whitespace character other than the plain space, and holds
    the visible characters of the text (those that are neither
    whitespace nor one of the two artifacts), all of them and in their
    order. *)
Theorem clean_text_keeps_visible_text_only :
  forall text : str,
    (0%N ∉ clean_text text)
    /\ (65533%N ∉ clean_text text)
    /\ (forall c, head (clean_text text) = Some c -> isspace c = false)
    /\ (forall c, last (clean_text text) = Some c -> isspace c = false)
    /\ (forall c, c ∈ clean_text text -> isspace c = true -> c = 32%N)
    /\ filter (fun c => visible c) (clean_text text)
       = filter (fun c => visible c) text.
Proof.
  intros [|c s].
  - split_and!;
      [apply not_elem_of_nil | apply not_elem_of_nil | done | done | | done].
    intros c Hc. by apply elem_of_nil in Hc.
  - destruct (clean_text_unfold c s)
      as (before & after & Heq & Hbefore & Hafter & Hhead & Hlast).
    assert (Hin : forall d, d ∈ clean_text (c :: s) ->
              d <> 65533%N /\ d <> 0%N
              /\ d ∈ join [32%N] (split (c :: s))).
    { intros d Hd.
      assert (Hd' : d ∈ before ++ clean_text (c :: s) ++ after)
        by (apply elem_of_app; right; apply elem_of_app; by left).
      rewrite <- Heq in Hd'.
      apply list_elem_of_filter in Hd' as [Hrepl Hd'].
      apply list_elem_of_filter in Hd' as [Hnull Hd']. done. }
    split_and!; [| | done | done | |].
    + intros H0. by destruct (Hin _ H0) as (_ & ? & _).
    + intros H0. by destruct (Hin _ H0) as (? & _).
    + intros d Hd Hspace. destruct (Hin _ Hd) as (_ & _ & Hjoin).
      by apply (normalise_whitespace_is_space (c :: s)).
    + transitivity (filter (fun c => visible c)
                      (before ++ clean_text (c :: s) ++ after)).
      { rewrite !filter_app.
        rewrite (whitespace_not_visible before), (whitespace_not_visible after)
          by done.
        by rewrite app_nil_r. }
      rewrite <- Heq.
      rewrite (list_filter_filter_l _ (fun x => x <> 65533%N))
        by (intros d Hd; by apply visible_not_artifact in Hd as [_ ?]).
      rewrite (list_filter_filter_l _ (fun x => x <> 0%N))
        by (intros d Hd; by apply visible_not_artifact in Hd as [? _]).
      rewrite <- (list_filter_filter_l (fun c => visible c)
                    (fun c => isspace c = false)
                    (join [32%N] (split (c :: s))))
        by apply visible_nonspace.
      rewrite normalise_keeps_nonspace.
      apply list_filter_filter_l, visible_nonspace.
Qed.

(** X6. [clean_text] changes nothing on a text that holds neither a null
    nor a replacement character and that it has cleaned already; and for
    every text the second application reaches a fixed point: a third one
    changes nothing. *)
Theorem clean_text_settles_after_two_passes :
  (forall text : str,
     artifact_free text -> clean_text (clean_text text) = clean_text text)
  /\ (forall text : str,
        clean_text (clean_text (clean_text text))
        = clean_text (clean_text text)).
Proof.
  split; [apply clean_text_idempotent_artifact_free|].
  intros [|c s]; [done|].
  apply clean_text_idempotent_artifact_free.
  destruct (clean_text_unfold c s) as (before & after & Heq & _).
  assert (Hin : forall d, d ∈ clean_text (c :: s) ->
            d <> 65533%N /\ d <> 0%N).
  { intros d Hd.
    assert (Hd' : d ∈ before ++ clean_text (c :: s) ++ after)
      by (apply elem_of_app; right; apply elem_of_app; by left).
    rewrite <- Heq in Hd'.
    apply list_elem_of_filter in Hd' as [Hrepl Hd'].
    apply list_elem_of_filter in Hd' as [Hnull Hd']. done. }
  split; intros H0; by destruct (Hin _ H0).
Qed.

(** ** src/rag_engine.py: context text, analysis and the general route *)

Lemma join_app (sep : str) (parts1 parts2 : list str) :
  parts1 <> [] -> parts2 <> [] ->
  join sep (parts1 ++ parts2) = join sep parts1 ++ sep ++ join sep parts2.
Proof.
  intros Hne1 Hne2. induction parts1 as [|p parts1 IH]; [done|].
  destruct parts1 as [|q parts1].
  - destruct parts2; [done|]. done.
  - change (join sep ((p :: q :: parts1) ++ parts2))
      with (p ++ sep ++ join sep ((q :: parts1) ++ parts2)).
    change (join sep (p :: q :: parts1))
      with (p ++ sep ++ join sep (q :: parts1)).
    rewrite IH by done. by rewrite <- !app_assoc.
Qed.

(** X7. The context text of no document is empty; the context text of
    two non-empty batches of documents is the two context texts with one
    blank line between them; and every document's block, its applicant
    label ("Unknown" when the metadata has no applicant) followed by its
    full text, occurs in the context text. *)
Theorem context_text_holds_every_labelled_block :
  _build_context_text [] = []
  /\ (forall docs1 docs2 : list Document,
        docs1 <> [] -> docs2 <> [] ->
        _build_context_text (docs1 ++ docs2)
        = _build_context_text docs1 ++ NL ++ NL ++ _build_context_text docs2)
  /\ (forall (docs : list Document) (doc : Document),
        doc ∈ docs ->
        occurs_in
          (lit "[Applicant: "
           ++ default (lit "Unknown") (metadata doc !! lit "applicant")
           ++ lit "]" ++ NL ++ page_content doc)
          (_build_context_text docs)
        /\ occurs_in (page_content doc) (_build_context_text docs)).
Proof.
  split; [done|]. split.
  - intros docs1 docs2 Hne1 Hne2. unfold _build_context_text.
    rewrite map_app, join_app; [by rewrite <- !app_assoc | |].
    + by destruct docs1.
    + by destruct docs2.
  - intros docs doc Hin.
    assert (Hblock : occurs_in
      (lit "[Applicant: "
       ++ default (lit "Unknown") (metadata doc !! lit "applicant")
       ++ lit "]" ++ NL ++ page_content doc)
      (_build_context_text docs)).
    { unfold _build_context_text. apply join_occurs.
      apply list_elem_of_fmap. by exists doc. }
    split; [exact Hblock|].
    destruct Hblock as (before & after & ->).
    exists (before ++ lit "[Applicant: "
            ++ default (lit "Unknown") (metadata doc !! lit "applicant")
            ++ lit "]" ++ NL), after.
    by rewrite <- !app_assoc.
Qed.

(** X8. The analysis of a query names the route the router takes for it.
    Its type is "count" exactly for the queries the router answers from
    the name list without a search; "applicant_specific" exactly for
    those it answers with the k = 100 search for a matched, non-empty
    name; "general" for those it answers with the k = 20 search. The
    matched applicant is recorded also when the type is "count". *)
Theorem analysis_names_the_route_taken :
  forall (P : Platform) (Score : Type) (self : RAGEngine) (q : str)
         (vectorstore : FAISS Score) (applicant_names : list str),
    (QueryAnalyzer.analysis_matched_applicant
       (QueryAnalyzer.analyze_query q applicant_names)
     = match is_applicant_specific q applicant_names with
       | Some [] => None
       | matched => matched
       end)
    /\ (QueryAnalyzer.analysis_query_type
          (QueryAnalyzer.analyze_query q applicant_names) = lit "count"
        /\ is_count_query q = true
        /\ _build_context_from_query self q vectorstore applicant_names
           = ([], Ret [count_doc applicant_names])
        \/ QueryAnalyzer.analysis_query_type
             (QueryAnalyzer.analyze_query q applicant_names)
           = lit "applicant_specific"
           /\ is_count_query q = false
           /\ (exists N, N <> []
                 /\ is_applicant_specific q applicant_names = Some N)
           /\ head (trace (_build_context_from_query self q vectorstore
                             applicant_names))
              = Some (SimilaritySearchWithScore q 100)
        \/ QueryAnalyzer.analysis_query_type
             (QueryAnalyzer.analyze_query q applicant_names) = lit "general"
           /\ is_count_query q = false
           /\ QueryAnalyzer.analysis_matched_applicant
                (QueryAnalyzer.analyze_query q applicant_names) = None
           /\ head (trace (_build_context_from_query self q vectorstore
                             applicant_names))
              = Some (GetRelevantDocuments q 20)).
Proof.
  intros P Score self q vectorstore names.
  unfold QueryAnalyzer.analyze_query.
  destruct (is_count_query q) eqn:Hcount;
    destruct (is_applicant_specific q names) as [[|c N]|] eqn:Hmatch;
    cbn [QueryAnalyzer.analysis_is_count_query
         QueryAnalyzer.analysis_matched_applicant
         QueryAnalyzer.analysis_query_type];
    (split; [reflexivity|]).
  1-3: left; split; [reflexivity|]; split; [reflexivity|];
       unfold _build_context_from_query; by rewrite Hcount.
  - right; right. split_and!; [done | done | done |].
    rewrite (router_general self q vectorstore names) by auto.
    by destruct (get_relevant_documents vectorstore q 20).
  - right; left. split_and!; [done | done | by exists (c :: N) |].
    rewrite (router_person_specific self q vectorstore names (c :: N))
      by done.
    by destruct (similarity_search_with_score vectorstore q 100).
  - right; right. split_and!; [done | done | done |].
    rewrite (router_general self q vectorstore names) by auto.
    by destruct (get_relevant_documents vectorstore q 20).
Qed.





(** ** src/vectorstore.py: documents, index and filter *)

Section DocumentFacts.
Context {Score : Type} (self : VectorStoreManager Score).

Lemma create_documents_loop_all_split (items : list (str * str))
    (all_documents : list Document) :
  Forall (splits self) items ->
  create_documents_loop self items all_documents
  = ([], Ret (all_documents ++ concat (map (tagged_chunks self) items))).
Proof.
  revert all_documents.
  induction items as [|[applicant_name cv_text] items IH];
    intros all_documents Hall.
  - simpl. by rewrite app_nil_r.
  - apply Forall_cons in Hall as [[chunks Hsplit] Hall]. simpl in Hsplit.
    cbn [create_documents_loop map concat].
    unfold create_documents, tagged_chunks at 1. cbn [fst snd].
    rewrite Hsplit. unfold mbind, mret, Comp_bind, Comp_ret.
    rewrite IH by done. by rewrite <- app_assoc.
Qed.

Lemma create_documents_loop_Ret (items : list (str * str))
    (all_documents docs : list Document) :
  result_of (create_documents_loop self items all_documents) = Ret docs ->
  Forall (splits self) items.
Proof.
  revert all_documents.
  induction items as [|[applicant_name cv_text] items IH];
    intros all_documents Hret; [constructor|].
  cbn [create_documents_loop] in Hret. unfold create_documents in Hret.
  destruct (split_text self cv_text) as [chunks|e] eqn:Hsplit; [|done].
  unfold mbind, mret, Comp_bind, Comp_ret in Hret.
  destruct (create_documents_loop self items _) as [t o] eqn:Hloop.
  constructor; [by exists chunks|].
  eapply IH. rewrite Hloop. exact Hret.
Qed.

End DocumentFacts.

(** X11. When cutting the CVs into documents succeeds, the documents are
    the chunks of each CV in turn, in the order of the mapping and of the
    splitter, each carrying its text and the name of its applicant as its
    only metadata, and nothing outside is called. Hence filtering these
    documents by an applicant name keeps exactly the chunks of the CVs
    whose name equals it up to case. *)
Theorem documents_are_the_tagged_chunks `{Platform} {Score : Type}
    (self : VectorStoreManager Score) (applicant_cvs : list (str * str))
    (docs : list Document) :
  result_of (create_documents_from_cvs self applicant_cvs) = Ret docs ->
  create_documents_from_cvs self applicant_cvs = ([], Ret docs)
  /\ docs = concat (map (tagged_chunks self) applicant_cvs)
  /\ (forall doc,
        doc ∈ docs <->
        exists applicant_name cv_text chunks,
          (applicant_name, cv_text) ∈ applicant_cvs
          /\ split_text self cv_text = Ret chunks
          /\ page_content doc ∈ chunks
          /\ metadata doc = {[ lit "applicant" := applicant_name ]})
  /\ (forall applicant_name,
        filter (belongs_to applicant_name) docs
        = concat (map (tagged_chunks self)
                    (filter (fun item => lower (fst item)
                                         = lower applicant_name)
                            applicant_cvs))).
Proof.
  intros Hret. unfold create_documents_from_cvs in *.
  pose proof (create_documents_loop_Ret self _ _ _ Hret) as Hall.
  rewrite (create_documents_loop_all_split self applicant_cvs []) in Hret |- *
    by done.
  injection Hret as <-. cbn [app].
  split; [done|]. split; [done|]. split.
  - intros doc. rewrite list_elem_of_In, in_concat. split.
    + intros (block & Hblock & Hdoc). apply in_map_iff in Hblock
        as ([applicant_name cv_text] & <- & Hitem).
      unfold tagged_chunks in Hdoc. cbn [fst snd] in Hdoc.
      destruct (split_text self cv_text) as [chunks|e] eqn:Hsplit;
        [|by destruct Hdoc].
      apply in_map_iff in Hdoc as (chunk & <- & Hchunk).
      exists applicant_name, cv_text, chunks.
      split_and!; [by apply list_elem_of_In | done
                  | by apply list_elem_of_In | done].
    + intros (applicant_name & cv_text & chunks & Hitem & Hsplit & Hchunk
              & Hmeta).
      exists (tagged_chunks self (applicant_name, cv_text)). split.
      * apply in_map. by apply list_elem_of_In.
      * unfold tagged_chunks. cbn [fst snd]. rewrite Hsplit.
        apply in_map_iff. exists (page_content doc). split.
        -- destruct doc as [content md]. cbn in *. by rewrite Hmeta.
        -- by apply list_elem_of_In.
  - intros applicant_name. clear Hall.
    induction applicant_cvs as [|[n t] cvs IH]; [done|].
    cbn [map concat]. rewrite filter_app, IH.
    rewrite (filter_cons (fun item => lower (fst item) = lower applicant_name)).
    assert (Htag : forall doc, doc ∈ tagged_chunks self (n, t) ->
              (belongs_to applicant_name doc <-> lower n = lower applicant_name)).
    { intros doc Hdoc. unfold tagged_chunks in Hdoc. cbn [fst snd] in Hdoc.
      destruct (split_text self t) as [chunks|e];
        [|by apply elem_of_nil in Hdoc].
      apply list_elem_of_fmap in Hdoc as (chunk & -> & _).
      unfold belongs_to. cbn [metadata].
      by rewrite lookup_singleton_eq. }
    destruct (decide (lower (fst (n, t)) = lower applicant_name)) as [Heq|Hne];
      cbn [fst] in *.
    + cbn [map concat]. f_equal.
      induction (tagged_chunks self (n, t)) as [|doc block IHb]; [done|].
      rewrite filter_cons_True.
      * f_equal. apply IHb. intros d Hd. apply Htag. by right.
      * apply Htag; [by left | done].
    + rewrite <- (app_nil_l (concat _)) at 2. f_equal.
      induction (tagged_chunks self (n, t)) as [|doc block IHb]; [done|].
      rewrite filter_cons_False.
      * apply IHb. intros d Hd. apply Htag. by right.
      * intros Hb. apply Hne. apply (Htag doc); [by left | done].
Qed.

(** X11, at two CVs of one chunk each. *)
Lemma documents_are_the_tagged_chunks_witness :
  result_of (create_documents_from_cvs IndexFixtures.manager
               [(lit "Jane Doe", lit "Python"); (lit "Bob", lit "Go")])
  = Ret [Fixtures.chunk "Jane Doe" "Python"; Fixtures.chunk "Bob" "Go"]
  /\ create_documents_from_cvs IndexFixtures.manager
       [(lit "Jane Doe", lit "Python"); (lit "Bob", lit "Go")]
     = ([], Ret [Fixtures.chunk "Jane Doe" "Python";
                 Fixtures.chunk "Bob" "Go"])
  /\ forall applicant_name,
       filter (@belongs_to ascii_platform applicant_name)
         [Fixtures.chunk "Jane Doe" "Python"; Fixtures.chunk "Bob" "Go"]
       = concat (map (tagged_chunks IndexFixtures.manager)
                   (filter (fun item => @lower ascii_platform (fst item)
                                        = @lower ascii_platform applicant_name)
                      [(lit "Jane Doe", lit "Python"); (lit "Bob", lit "Go")])).
Proof.
  split; [vm_compute; reflexivity|].
  pose proof (@documents_are_the_tagged_chunks ascii_platform nat
                IndexFixtures.manager
                [(lit "Jane Doe", lit "Python"); (lit "Bob", lit "Go")]
                [Fixtures.chunk "Jane Doe" "Python"; Fixtures.chunk "Bob" "Go"])
    as Hthm.
  destruct Hthm as (Hrun & _ & _ & Hfilter); [vm_compute; reflexivity|].
  split; [exact Hrun | exact Hfilter].
Defined.

(** X12. [create_vectorstore] never raises, and an index it returns is
    always the one the builder made, in a single call, from the complete
    list of documents of all CVs: when cutting a CV or building the index
    raises, the exception is printed and [None] is returned, never an
    index over a part of the documents. *)
Theorem index_is_built_from_all_documents_or_not_at_all :
  forall (Score : Type) (self : VectorStoreManager Score)
         (applicant_cvs : list (str * str)),
    (exists t index, create_vectorstore self applicant_cvs = (t, Ret index))
    /\ (forall docs index,
          result_of (create_documents_from_cvs self applicant_cvs) = Ret docs ->
          docs <> [] ->
          from_documents self docs = Ret index ->
          create_vectorstore self applicant_cvs
          = ([FaissFromDocuments docs], Ret (Some index)))
    /\ (forall docs e,
          result_of (create_documents_from_cvs self applicant_cvs) = Ret docs ->
          docs <> [] ->
          from_documents self docs = Raise e ->
          create_vectorstore self applicant_cvs
          = ([FaissFromDocuments docs;
              Print (lit "Error creating vector store: " ++ e)], Ret None))
    /\ (forall e,
          result_of (create_documents_from_cvs self applicant_cvs) = Raise e ->
          create_vectorstore self applicant_cvs
          = ([Print (lit "Error creating vector store: " ++ e)], Ret None))
    /\ (forall index,
          result_of (create_vectorstore self applicant_cvs)
          = Ret (Some index) ->
          exists docs,
            docs <> []
            /\ result_of (create_documents_from_cvs self applicant_cvs)
               = Ret docs
            /\ from_documents self docs = Ret index
            /\ trace (create_vectorstore self applicant_cvs)
               = [FaissFromDocuments docs]).
Proof.
  intros Score self cvs.
  split; [apply create_vectorstore_never_raises|].
  pose proof (create_documents_loop_quiet self cvs []) as Hquiet.
  unfold create_vectorstore, create_documents_from_cvs in *.
  destruct (create_documents_loop self cvs []) as [t [docs|e]].
  all: simpl in Hquiet; subst t.
  all: unfold try_except, call, print, mbind, mret, Comp_bind, Comp_ret, call.
  - destruct docs as [|doc docs].
    + split_and!; try done.
      * intros docs index [= <-]. done.
      * intros docs e [= <-]. done.
    + destruct (from_documents self (doc :: docs)) as [index|e] eqn:Hbuild.
      * split_and!; try done.
        -- intros docs' index' [= <-] _ Hb. rewrite Hbuild in Hb.
           by injection Hb as <-.
        -- intros docs' e [= <-] _ Hb. by rewrite Hbuild in Hb.
        -- intros index' [= <-]. by exists (doc :: docs).
      * split_and!; try done.
        -- intros docs' index' [= <-] _ Hb. by rewrite Hbuild in Hb.
        -- intros docs' e' [= <-] _ Hb. rewrite Hbuild in Hb.
           by injection Hb as <-.
  - split_and!; try done. by intros e' [= <-].
Qed.

(** X13. The applicant filter with an explicit limit. Without a limit it
    keeps 5 documents. With a limit k that is not negative it returns the
    first k matching documents, all of them when fewer than k match, so a
    larger limit only appends to the result of a smaller one. Two names
    equal up to case select the same documents. A negative limit, by
    Python's slicing, drops that many matching documents from the end. *)
Theorem applicant_filter_returns_the_first_k_matches :
  forall (P : Platform) (Score : Type)
         (ranked : list (Document * Score)) (applicant_name : str),
    filter_documents_by_applicant ranked applicant_name None
    = filter_documents_by_applicant ranked applicant_name (Some 5%Z)
    /\ (forall k : nat,
          filter_documents_by_applicant ranked applicant_name
            (Some (Z.of_nat k))
          = take k (map fst
                      (filter (fun ds => belongs_to applicant_name (fst ds))
                              ranked))
          /\ length (filter_documents_by_applicant ranked applicant_name
                       (Some (Z.of_nat k)))
             = min k (length
                        (filter (fun ds => belongs_to applicant_name (fst ds))
                                ranked)))
    /\ (forall k k' : nat,
          k <= k' ->
          filter_documents_by_applicant ranked applicant_name
            (Some (Z.of_nat k))
          `prefix_of`
          filter_documents_by_applicant ranked applicant_name
            (Some (Z.of_nat k')))
    /\ (forall (other_name : str) (k : option Z),
          lower other_name = lower applicant_name ->
          filter_documents_by_applicant ranked other_name k
          = filter_documents_by_applicant ranked applicant_name k)
    /\ (forall n : nat,
          filter_documents_by_applicant ranked applicant_name
            (Some (- Z.of_nat (S n))%Z)
          = take (length (filter (fun ds => belongs_to applicant_name (fst ds))
                                 ranked) - S n)
                 (map fst
                    (filter (fun ds => belongs_to applicant_name (fst ds))
                            ranked))).
Proof.
  intros P Score ranked applicant_name.
  assert (Hk : forall k : nat,
    filter_documents_by_applicant ranked applicant_name (Some (Z.of_nat k))
    = take k (map fst
                (filter (fun ds => belongs_to applicant_name (fst ds))
                        ranked))).
  { intros k. unfold filter_documents_by_applicant. simpl default.
    apply slice_to_nonneg. }
  split; [reflexivity|]. split; [|split; [|split]].
  - intros k. split; [apply Hk|].
    rewrite Hk, length_take, length_map. lia.
  - intros k k' Hle. rewrite !Hk.
    exists (take (k' - k)
              (drop k (map fst
                         (filter (fun ds => belongs_to applicant_name (fst ds))
                                 ranked)))).
    rewrite <- (take_drop k (take k' _)) at 1.
    rewrite take_take, Nat.min_l by done. f_equal.
    by rewrite skipn_firstn_comm.
  - intros other k Hlower. unfold filter_documents_by_applicant. do 2 f_equal.
    apply list_filter_iff. intros [doc score]. unfold belongs_to.
    by rewrite Hlower.
  - intros n. unfold filter_documents_by_applicant, slice_to. simpl default.
    replace (0 <=? - Z.of_nat (S n))%Z with false
      by (symmetry; apply Z.leb_gt; lia).
    rewrite length_map. do 2 f_equal. lia.
Qed.

(** ** src/document_processor.py: validation and the resulting names *)

Lemma validate_loop_unfold (files : list UploadedFile) (errors : list str) :
  validate_loop files errors
  = errors
    ++ map (fun file => lit "Unsupported file type: " ++ name file)
         (filter (fun file => type file ∉ SUPPORTED_MIME_TYPES) files).
Proof.
  revert errors. induction files as [|file files IH]; intros errors.
  - simpl. by rewrite app_nil_r.
  - cbn [validate_loop]. rewrite filter_cons.
    destruct (decide (type file ∈ SUPPORTED_MIME_TYPES)) as [Hin|Hout].
    + rewrite decide_False by naive_solver. apply IH.
    + rewrite decide_True by done. rewrite IH. cbn [map].
      by rewrite <- app_assoc.
Qed.

Lemma supported_iff_extraction `{Platform} (readers : Readers)
    (file : UploadedFile) :
  type file = PDF_MIME \/ type file = DOCX_MIME
  <-> extraction readers file <> None.
Proof.
  unfold extraction.
  destruct (decide (type file = PDF_MIME)) as [Hpdf|Hpdf].
  - split; [done | by left].
  - destruct (decide (type file = DOCX_MIME)) as [Hdocx|Hdocx].
    + split; [done | by right].
    + split; [by intros [?|?] | done].
Qed.

Lemma read_event_in_trace `{Platform} (readers : Readers)
    (files : list UploadedFile) (file : UploadedFile) :
  (ReadPdf file
   ∈ trace (DocumentProcessor.extract_text_from_files readers files)
   \/ ReadDocx file
      ∈ trace (DocumentProcessor.extract_text_from_files readers files))
  <-> file ∈ files /\ (type file = PDF_MIME \/ type file = DOCX_MIME).
Proof.
  unfold DocumentProcessor.extract_text_from_files.
  rewrite extract_loop_unfold. cbn [trace fst].
  rewrite !list_elem_of_In, !in_concat. split.
  - intros Hread.
    assert (Hsome : exists block, In block (map (file_trace readers) files)
              /\ (In (ReadPdf file) block \/ In (ReadDocx file) block)).
    { destruct Hread as [(b & ? & ?)|(b & ? & ?)]; exists b; auto. }
    destruct Hsome as (block & Hblock & Hin).
    apply in_map_iff in Hblock as (g & <- & Hg).
    assert (Hfile : file = g /\ extraction readers g <> None).
    { unfold file_trace, read_event, warning in Hin.
      destruct (extraction readers g) as [[text|e]|];
        destruct (decide (type g = PDF_MIME));
        destruct Hin as [Hin|Hin]; simpl in Hin;
        repeat (destruct Hin as [Hin|Hin]; try discriminate);
        try done; by injection Hin as ->. }
    destruct Hfile as [-> Hsupp]. split; [done|].
    by apply (supported_iff_extraction readers).
  - intros [Hin Hsupp].
    apply (supported_iff_extraction readers) in Hsupp.
    assert (Hevent : In (read_event file) (file_trace readers file)).
    { unfold file_trace.
      destruct (extraction readers file) as [[text|e]|]; [| |done];
        by left. }
    unfold read_event in Hevent.
    destruct (decide (type file = PDF_MIME)); [left|right];
      exists (file_trace readers file); (split; [by apply in_map | done]).
Qed.

(** X14. Validation and extraction agree on what a supported file is.
    [validate_files] reports "No files uploaded" for the empty batch and
    otherwise one error per file whose type is neither PDF nor DOCX, in
    batch order, naming the file; it reports nothing exactly when the
    batch is not empty and every file is supported. The files it counts
    as unsupported are exactly the files [extract_text_from_files] never
    hands to a reader: a file of the batch is read if and only if its
    type is PDF or DOCX, so a batch that validates without errors is read
    in full. *)
Theorem validation_reports_the_files_extraction_skips :
  validate_files [] = [lit "No files uploaded"]
  /\ (forall file files,
        validate_files (file :: files)
        = map (fun file => lit "Unsupported file type: " ++ name file)
            (filter (fun file => type file <> PDF_MIME
                                 /\ type file <> DOCX_MIME)
                    (file :: files)))
  /\ (forall files,
        validate_files files = []
        <-> files <> []
            /\ Forall (fun file => type file = PDF_MIME
                                   \/ type file = DOCX_MIME) files)
  /\ (forall (P : Platform) (readers : Readers) (files : list UploadedFile)
             (file : UploadedFile),
        file ∈ files ->
        ((ReadPdf file
          ∈ trace (DocumentProcessor.extract_text_from_files readers files)
          \/ ReadDocx file
             ∈ trace (DocumentProcessor.extract_text_from_files readers
                        files))
         <-> ~ (type file <> PDF_MIME /\ type file <> DOCX_MIME)))
  /\ (forall (P : Platform) (readers : Readers) (files : list UploadedFile)
             (file : UploadedFile),
        validate_files files = [] -> file ∈ files ->
        ReadPdf file
        ∈ trace (DocumentProcessor.extract_text_from_files readers files)
        \/ ReadDocx file
           ∈ trace (DocumentProcessor.extract_text_from_files readers files)).
Proof.
  assert (Hsupp : forall file : UploadedFile,
            type file ∉ SUPPORTED_MIME_TYPES
            <-> type file <> PDF_MIME /\ type file <> DOCX_MIME).
  { intros file. unfold SUPPORTED_MIME_TYPES.
    rewrite !not_elem_of_cons. split; [by intros (? & ? & _)|].
    intros [? ?]. split_and!; [done | done | apply not_elem_of_nil]. }
  assert (Hcons : forall file files,
    validate_files (file :: files)
    = map (fun file => lit "Unsupported file type: " ++ name file)
        (filter (fun file => type file <> PDF_MIME /\ type file <> DOCX_MIME)
                (file :: files))).
  { intros file files. unfold validate_files.
    rewrite validate_loop_unfold. cbn [app]. f_equal.
    apply list_filter_iff, Hsupp. }
  assert (Hnone : forall files,
    validate_files files = []
    <-> files <> []
        /\ Forall (fun file => type file = PDF_MIME
                               \/ type file = DOCX_MIME) files).
  { intros [|file files].
    - split; [done | by intros [? _]].
    - rewrite Hcons. split.
      + intros Hnil. split; [done|]. apply Forall_forall. intros g Hg.
        destruct (decide (type g = PDF_MIME)); [by left|].
        destruct (decide (type g = DOCX_MIME)); [by right|].
        apply fmap_nil_inv in Hnil.
        assert (Hin : g ∈ filter (fun file => type file <> PDF_MIME
                                   /\ type file <> DOCX_MIME) (file :: files))
          by by apply list_elem_of_filter.
        rewrite Hnil in Hin. by apply elem_of_nil in Hin.
      + intros [_ Hall].
        replace (filter _ (file :: files)) with (@nil UploadedFile); [done|].
        symmetry. induction Hall as [|g gs Hg Hgs IH]; [done|].
        rewrite filter_cons_False; [done|].
        intros [Hpdf Hdocx]. by destruct Hg. }
  split; [done|]. split; [exact Hcons|]. split; [exact Hnone|]. split.
  - intros P readers files file Hin.
    rewrite (read_event_in_trace readers files file). split.
    + intros [_ [Hpdf|Hdocx]] [Hnpdf Hndocx]; done.
    + intros Hnot. split; [done|].
      destruct (decide (type file = PDF_MIME)); [by left|].
      destruct (decide (type file = DOCX_MIME)); [by right|].
      exfalso. by apply Hnot.
  - intros P readers files file Hvalid Hin.
    apply (read_event_in_trace readers files file). split; [done|].
    apply Hnone in Hvalid as [_ Hall]. rewrite Forall_forall in Hall.
    by apply Hall.
Qed.

Section DictKeyFacts.
Context {K V : Type} `{EqDecision K}.
Implicit Types (d : list (K * V)) (k : K) (v : V).

Lemma dict_keys_set d k v :
  Dict.keys (Dict.set k v d)
  = if decide (k ∈ Dict.keys d) then Dict.keys d else Dict.keys d ++ [k].
Proof.
  unfold Dict.keys. induction d as [|[k' v'] d IH].
  - cbn [Dict.set map fst app].
    by rewrite decide_False by apply not_elem_of_nil.
  - cbn [Dict.set map fst]. destruct (decide (k = k')) as [->|Hne].
    + cbn [map fst]. rewrite decide_True; [done | by left].
    + cbn [map fst]. rewrite IH.
      destruct (decide (k ∈ map fst d)) as [Hin|Hout].
      * rewrite decide_True; [done | by right].
      * rewrite decide_False; [done|].
        intros Hin. apply elem_of_cons in Hin as [?|?]; done.
Qed.

Lemma dict_keys_get d k : k ∈ Dict.keys d <-> is_Some (Dict.get k d).
Proof.
  unfold Dict.keys. induction d as [|[k' v'] d IH]; simpl.
  - split; [intros Hin; by apply elem_of_nil in Hin | by intros [? ?]].
  - destruct (decide (k = k')) as [->|Hne].
    + split; [by eexists | intros _; by left].
    + rewrite <- IH. split.
      * intros Hin. apply elem_of_cons in Hin as [?|?]; done.
      * intros Hin. by right.
Qed.

Lemma dict_set_NoDup d k v :
  NoDup (Dict.keys d) -> NoDup (Dict.keys (Dict.set k v d)).
Proof.
  intros Hd. rewrite dict_keys_set. destruct (decide (k ∈ Dict.keys d)); [done|].
  apply NoDup_app. split_and!; [done | | apply NoDup_singleton].
  intros x Hx Hk. apply list_elem_of_singleton in Hk as ->. done.
Qed.

End DictKeyFacts.

Section NameFacts.
Context `{Platform} (readers : Readers).
Implicit Types (file : UploadedFile) (files : list UploadedFile)
  (cvs : list (str * str)).

Lemma fold_keep_NoDup files cvs :
  NoDup (Dict.keys cvs) -> NoDup (Dict.keys (fold_left (keep readers) files cvs)).
Proof.
  revert cvs. induction files as [|file files IH]; intros cvs Hcvs; [done|].
  simpl. apply IH. unfold keep.
  destruct (extraction readers file) as [[text|e]|]; [|done|done].
  by apply dict_set_NoDup.
Qed.

Lemma fold_keep_keys files cvs (n : str) :
  n ∈ Dict.keys (fold_left (keep readers) files cvs)
  <-> n ∈ Dict.keys cvs
      \/ exists file, file ∈ files /\ succeeded readers file = true
                      /\ extract_person_name (name file) = n.
Proof.
  revert cvs. induction files as [|file files IH]; intros cvs.
  - simpl. split; [by left|]. intros [?|(f & Hf & _)]; [done|].
    by apply elem_of_nil in Hf.
  - simpl. rewrite IH. unfold keep, succeeded.
    destruct (extraction readers file) as [[text|e]|] eqn:Hfile.
    + rewrite dict_keys_set.
      destruct (decide (extract_person_name (name file) ∈ Dict.keys cvs))
        as [Hin|Hout].
      * split.
        -- intros [?|(f & Hf & Hok & Hn)]; [by left|].
           right. exists f. split; [by right | done].
        -- intros [?|(f & Hf & Hok & Hn)]; [by left|].
           apply elem_of_cons in Hf as [->|Hf]; [left; by rewrite <- Hn|].
           right. by exists f.
      * split.
        -- intros [Hn|(f & Hf & Hok & Hn)].
           ++ apply elem_of_app in Hn as [?|Hn]; [by left|].
              apply list_elem_of_singleton in Hn as ->.
              right. exists file. split; [by left|]. by rewrite Hfile.
           ++ right. exists f. split; [by right | done].
        -- intros [?|(f & Hf & Hok & Hn)].
           ++ left. apply elem_of_app. by left.
           ++ apply elem_of_cons in Hf as [->|Hf].
              ** left. apply elem_of_app. right. rewrite Hn. by left.
              ** right. by exists f.
    + split.
      * intros [?|(f & Hf & Hok & Hn)]; [by left|].
        right. exists f. split; [by right | done].
      * intros [?|(f & Hf & Hok & Hn)]; [by left|].
        apply elem_of_cons in Hf as [->|Hf]; [by rewrite Hfile in Hok|].
        right. by exists f.
    + split.
      * intros [?|(f & Hf & Hok & Hn)]; [by left|].
        right. exists f. split; [by right | done].
      * intros [?|(f & Hf & Hok & Hn)]; [by left|].
        apply elem_of_cons in Hf as [->|Hf]; [by rewrite Hfile in Hok|].
        right. by exists f.
Qed.

Lemma fold_keep_length files cvs :
  length (Dict.keys (fold_left (keep readers) files cvs))
  <= length (Dict.keys cvs)
     + length (filter (fun file => succeeded readers file) files).
Proof.
  revert cvs. induction files as [|file files IH]; intros cvs; [simpl; lia|].
  simpl. etrans; [apply IH|]. rewrite filter_cons. unfold keep, succeeded.
  destruct (extraction readers file) as [[text|e]|]; simpl; try lia.
  rewrite dict_keys_set.
  destruct (decide (extract_person_name (name file) ∈ Dict.keys cvs));
    rewrite ?length_app; simpl; lia.
Qed.

End NameFacts.

(** X15. The names [extract_text_from_files] returns as the keys of its
    mapping are pairwise distinct; they are exactly the person names of
    the files whose extraction succeeded, so there are at most as many
    names as such files (fewer when two files yield the same name); each
    name is a key that can be looked up; and none starts or ends with
    whitespace. *)
Theorem extracted_names_are_distinct_and_trimmed :
  forall (P : Platform) (readers : Readers) (files : list UploadedFile),
    exists cvs : list (str * str),
      result_of (DocumentProcessor.extract_text_from_files readers files)
      = Ret cvs
      /\ NoDup (Dict.keys cvs)
      /\ (forall applicant_name,
            applicant_name ∈ Dict.keys cvs
            <-> exists file,
                  file ∈ files /\ succeeded readers file = true
                  /\ extract_person_name (name file) = applicant_name)
      /\ length (Dict.keys cvs)
         <= length (filter (fun file => succeeded readers file) files)
      /\ (forall applicant_name,
            applicant_name ∈ Dict.keys cvs
            <-> is_Some (Dict.get applicant_name cvs))
      /\ (forall applicant_name c,
            applicant_name ∈ Dict.keys cvs ->
            (head applicant_name = Some c -> isspace c = false)
            /\ (last applicant_name = Some c -> isspace c = false)).
Proof.
  intros P readers files. exists (fold_left (keep readers) files []).
  unfold DocumentProcessor.extract_text_from_files.
  rewrite extract_loop_unfold. cbn [result_of snd].
  assert (Hkeys : forall n,
    n ∈ Dict.keys (fold_left (keep readers) files [])
    <-> exists file, file ∈ files /\ succeeded readers file = true
                     /\ extract_person_name (name file) = n).
  { intros n. rewrite fold_keep_keys. split; [|by right].
    intros [Hin|?]; [by apply elem_of_nil in Hin | done]. }
  split_and!; [done | | exact Hkeys | | |].
  - apply fold_keep_NoDup. constructor.
  - apply (fold_keep_length readers files []).
  - intros n. apply dict_keys_get.
  - intros n c Hn. apply Hkeys in Hn as (file & _ & _ & <-).
    unfold extract_person_name.
    destruct (os_path_splitext (name file)) as [root ext].
    destruct (strip_decompose root) as (p & q & _ & _ & _ & Hhead & Hlast).
    split; [apply Hhead | apply Hlast].
Qed.

(** ** src/ui_components.py and app.py: the session and the upload handler *)

(** X16. Session state. Initialising defines the three attributes without
    changing what the getters return, and a second initialisation changes
    nothing; [has_vectorstore] holds exactly when [get_vectorstore]
    returns a store; what [update_vectorstore] stores is what the getters
    return afterwards, whatever the session held before, and a later
    initialisation keeps it. *)
Theorem session_getters_return_what_was_stored :
  forall (Score : Type) (s : SessionState Score)
         (vectorstore : option (FAISS Score)) (applicant_names : list str)
         (applicant_cvs : list (str * str)),
    (is_Some (ss_vectorstore (SessionManager.initialize_session_state s))
     /\ is_Some (ss_applicant_names
                   (SessionManager.initialize_session_state s))
     /\ is_Some (ss_applicant_cvs
                   (SessionManager.initialize_session_state s)))
    /\ (SessionManager.get_vectorstore
          (SessionManager.initialize_session_state s)
        = SessionManager.get_vectorstore s
        /\ SessionManager.get_applicant_names
             (SessionManager.initialize_session_state s)
           = SessionManager.get_applicant_names s
        /\ SessionManager.get_applicant_cvs
             (SessionManager.initialize_session_state s)
           = SessionManager.get_applicant_cvs s)
    /\ SessionManager.initialize_session_state
         (SessionManager.initialize_session_state s)
       = SessionManager.initialize_session_state s
    /\ (SessionManager.has_vectorstore s = true
        <-> exists store, SessionManager.get_vectorstore s = Some store)
    /\ (SessionManager.get_vectorstore
          (SessionManager.update_vectorstore vectorstore applicant_names
             applicant_cvs s) = vectorstore
        /\ SessionManager.get_applicant_names
             (SessionManager.update_vectorstore vectorstore applicant_names
                applicant_cvs s) = applicant_names
        /\ SessionManager.get_applicant_cvs
             (SessionManager.update_vectorstore vectorstore applicant_names
                applicant_cvs s) = applicant_cvs)
    /\ SessionManager.initialize_session_state
         (SessionManager.update_vectorstore vectorstore applicant_names
            applicant_cvs s)
       = SessionManager.update_vectorstore vectorstore applicant_names
           applicant_cvs s.
Proof.
  intros Score [[[store|]|] [names|] [cvs|]] vectorstore applicant_names
    applicant_cvs.
  all: split_and!; try reflexivity; try (by eexists).
  all: split; [try done; intros _; by eexists | try done].
  all: by intros [store' Hstore].
Qed.

Section UploadFacts.
Context {Score : Type} `{Platform}.

Lemma extract_text_from_files_unfold (readers : Readers)
    (files : list UploadedFile) :
  DocumentProcessor.extract_text_from_files readers files
  = (concat (map (file_trace readers) files),
     Ret (fold_left (keep readers) files [])).
Proof. apply extract_loop_unfold. Qed.

End UploadFacts.

(** X17. The upload handler never raises and always ends with a message.
    It replaces the session only when the batch is not empty, at least
    one CV was extracted, the manager could be constructed and the index
    was built: the session then holds that index, the extracted mapping
    and its keys as the applicant names (pairwise distinct), and the
    handler ends with the success and the info message. In every other
    case the session is left exactly as it was, so a failed re-index
    keeps the previous index, and the last call is a warning or an error
    message. For an empty batch nothing is read. *)
Theorem upload_replaces_the_session_only_on_success :
  forall (P : Platform) (Score : Type) (services : Services Score)
         (files : list UploadedFile) (s : SessionState Score),
    exists (t : list ui_event) (s' : SessionState Score),
      handle_file_upload services files s = (t, s', Ret tt)
      /\ (files = [] ->
          t = [StWarning
                 (lit "Please upload one or more CV files before indexing.")])
      /\ (s' = s
          /\ (exists message,
                last t = Some (StWarning message)
                \/ last t = Some (StError message))
          \/ exists cvs manager index,
               result_of (DocumentProcessor.extract_text_from_files
                            (svc_readers services) files) = Ret cvs
               /\ cvs <> []
               /\ svc_new_manager services = Ret manager
               /\ result_of (create_vectorstore manager cvs)
                  = Ret (Some index)
               /\ s' = {| ss_vectorstore := Some (Some index);
                          ss_applicant_names := Some (Dict.keys cvs);
                          ss_applicant_cvs := Some cvs |}
               /\ SessionManager.has_vectorstore s' = true
               /\ NoDup (SessionManager.get_applicant_names s')
               /\ (forall message,
                     (StError message ∉ t) /\ (StWarning message ∉ t))
               /\ StSuccess (CHECK_MARK ++ lit " Successfully indexed "
                             ++ str_of_nat (length (Dict.keys cvs))
                             ++ lit " CVs!") ∈ t
               /\ last t
                  = Some (StInfo (CLIPBOARD ++ lit " Loaded applicants: "
                                  ++ join (lit ", ") (Dict.keys cvs)))).
Proof.
  intros P Score services files s.
  destruct files as [|file files].
  { eexists _, _. split; [reflexivity|]. split; [done|].
    left. split; [done|]. eexists. by left. }
  unfold handle_file_upload.
  set (batch := file :: files).
  unfold UIComponents.render_loading_spinner, UIComponents.show_error_message,
    UIComponents.show_success_message, UIComponents.show_info_message,
    ui_try, ui_emit, ui_call, ui_core, ui_write, mbind, UiComp_bind.
  rewrite (extract_text_from_files_unfold (svc_readers services) batch).
  cbn [trace result_of fst snd].
  pose proof (fold_keep_NoDup (svc_readers services) batch []
                ltac:(constructor)) as Hnodup.
  destruct (fold_left (keep (svc_readers services)) batch [])
    as [|cv cvs] eqn:Hcvs.
  { eexists _, _. split; [reflexivity|]. split; [done|].
    left. split; [done|]. eexists. right.
    rewrite ?app_nil_r, !app_assoc. apply last_snoc. }
  destruct (svc_new_manager services) as [manager|e] eqn:Hmanager.
  2:{ eexists _, _. split; [reflexivity|]. split; [done|].
      left. split; [done|]. eexists. right.
      rewrite ?app_nil_r, !app_assoc. apply last_snoc. }
  destruct (create_vectorstore_never_raises manager (cv :: cvs))
    as (tb & index & Hbuild).
  rewrite Hbuild. cbn [trace result_of fst snd].
  destruct index as [index|].
  2:{ eexists _, _. split; [reflexivity|]. split; [done|].
      left. split; [done|]. eexists. right.
      rewrite ?app_nil_r, !app_assoc. apply last_snoc. }
  eexists _, _. split; [reflexivity|]. split; [done|].
  right. exists (cv :: cvs), manager, index.
  split_and!; try done.
  - by rewrite Hbuild.
  - intros message.
    split; intros Hin;
      repeat (apply elem_of_app in Hin as [Hin|Hin]);
      repeat (apply elem_of_cons in Hin as [Hin|Hin]; [discriminate|]);
      try (by apply elem_of_nil in Hin);
      apply list_elem_of_fmap in Hin as (? & ? & _); discriminate.
  - unfold Dict.keys. rewrite length_map.
    rewrite !elem_of_app, !elem_of_cons. do 5 right. left. by left.
  - rewrite ?app_nil_r, !app_assoc. apply last_snoc.
Qed.

(** ** src/ui_components.py: source highlights; app.py: handle_query *)

Section RenderingFacts.
Context {Score : Type} `{Platform}.

Lemma render_source_loop_shown (docs : list Document) (seen : gset str)
    (s : SessionState Score) :
  exists shown : list Document,
    _render_source_loop docs seen s
    = (map (fun doc => StMarkdown (card_html doc)) shown, s, Ret tt)
    /\ sublist shown docs
    /\ NoDup (map label shown)
    /\ (forall doc, doc ∈ shown -> label doc ∉ seen)
    /\ (forall doc, doc ∈ docs ->
                    label doc ∈ seen \/ label doc ∈ map label shown)
    /\ (forall doc, doc ∈ shown ->
          exists before after,
            docs = before ++ doc :: after
            /\ forall earlier, earlier ∈ before -> label earlier <> label doc).
Proof.
  revert seen. induction docs as [|doc docs IH]; intros seen.
  - exists []. split_and!; [done | constructor | constructor | | |];
      intros d Hd; by apply elem_of_nil in Hd.
  - cbn [_render_source_loop]. fold (label doc).
    destruct (decide (label doc ∈ seen)) as [Hseen|Hnew].
    + destruct (IH seen) as (shown & Hrun & Hsub & Hnodup & Hout & Hcover
                             & Hfirst).
      exists shown. split_and!; [done | by constructor | done | done | |].
      * intros d Hd. apply elem_of_cons in Hd as [->|Hd]; [by left|].
        by apply Hcover.
      * intros d Hd. destruct (Hfirst d Hd) as (before & after & -> & Hb).
        exists (doc :: before), after. split; [done|].
        intros e He. apply elem_of_cons in He as [->|He]; [|by apply Hb].
        intros Heq. apply (Hout d Hd). by rewrite <- Heq.
    + destruct (IH ({[ label doc ]} ∪ seen))
        as (shown & Hrun & Hsub & Hnodup & Hout & Hcover & Hfirst).
      exists (doc :: shown).
      unfold mbind, UiComp_bind, ui_emit. rewrite Hrun.
      split_and!; [done | by constructor | | | |].
      * cbn [map]. apply NoDup_cons. split; [|done].
        intros Hin. apply list_elem_of_fmap in Hin as (d & Heq & Hd).
        apply (Hout d Hd). rewrite <- Heq. set_solver.
      * intros d Hd. apply elem_of_cons in Hd as [->|Hd]; [done|].
        intros Hin. apply (Hout d Hd). set_solver.
      * intros d Hd. apply elem_of_cons in Hd as [->|Hd].
        -- right. cbn [map]. by left.
        -- destruct (Hcover d Hd) as [Hin|Hin].
           ++ apply elem_of_union in Hin as [Hin|Hin]; [|by left].
              apply elem_of_singleton in Hin. right. cbn [map].
              rewrite Hin. by left.
           ++ right. cbn [map]. by right.
      * intros d Hd. apply elem_of_cons in Hd as [->|Hd].
        -- exists [], docs. split; [done|].
           intros e He. by apply elem_of_nil in He.
        -- destruct (Hfirst d Hd) as (before & after & -> & Hb).
           exists (doc :: before), after. split; [done|].
           intros e He. apply elem_of_cons in He as [->|He]; [|by apply Hb].
           intros Heq. apply (Hout d Hd). rewrite <- Heq. set_solver.
Qed.

Lemma query_returns (self : RAGEngine) (q : str) (vectorstore : FAISS Score)
    (applicant_names : list str) :
  exists t r, query self q vectorstore applicant_names = (t, Ret r).
Proof.
  destruct (router_returns self q vectorstore applicant_names)
    as (t & docs & Hrouter & _).
  rewrite (query_unfold self q vectorstore applicant_names t docs Hrouter).
  destruct docs; by eexists _, _.
Qed.

End RenderingFacts.

(** X18. Source highlights. Rendering the source documents neither raises
    nor touches the session, and shows one card per applicant: the cards
    are those of documents taken from the list in its order, no two cards
    have the same applicant label, every document's applicant has a card,
    and the card of an applicant is made from that applicant's first
    document of the list. *)
Theorem one_card_per_applicant_from_the_first_document :
  forall (Score : Type) (docs : list Document) (s : SessionState Score),
    exists shown : list Document,
      _render_source_documents docs s
      = (map (fun doc => StMarkdown (card_html doc)) shown, s, Ret tt)
      /\ sublist shown docs
      /\ NoDup (map label shown)
      /\ (forall doc, doc ∈ docs -> label doc ∈ map label shown)
      /\ (forall doc, doc ∈ shown ->
            exists before after,
              docs = before ++ doc :: after
              /\ forall earlier,
                   earlier ∈ before -> label earlier <> label doc).
Proof.
  intros Score docs s. unfold _render_source_documents.
  destruct (render_source_loop_shown docs ∅ s)
    as (shown & Hrun & Hsub & Hnodup & _ & Hcover & Hfirst).
  exists shown. split_and!; [done | done | done | | done].
  intros doc Hdoc. destruct (Hcover doc Hdoc) as [Hin|Hin]; [|done].
  by apply not_elem_of_empty in Hin.
Qed.

Section QueryHandlerFacts.
Context {Score : Type} `{Platform}.

Lemma render_results_runs (text : str) (docs : list Document)
    (s : SessionState Score) :
  exists rendered,
    render_results text docs s = (rendered, s, Ret tt)
    /\ StWrite text ∈ rendered
    /\ (forall message, StError message ∉ rendered)
    /\ (forall e, Core e ∉ rendered).
Proof.
  unfold render_results, mbind, UiComp_bind, ui_emit.
  destruct docs as [|doc docs].
  - eexists. split; [reflexivity|]. split_and!.
    + right. by left.
    + intros m Hin.
      repeat (apply elem_of_cons in Hin as [Hin|Hin]; [discriminate|]).
      by apply elem_of_nil in Hin.
    + intros e Hin.
      repeat (apply elem_of_cons in Hin as [Hin|Hin]; [discriminate|]).
      by apply elem_of_nil in Hin.
  - unfold _render_source_documents.
    destruct (render_source_loop_shown (doc :: docs) ∅ s)
      as (shown & Hrun & _).
    rewrite Hrun. eexists. split; [reflexivity|]. split_and!.
    + right. by left.
    + intros m Hin. cbn [app] in Hin.
      repeat (apply elem_of_cons in Hin as [Hin|Hin]; [discriminate|]).
      apply list_elem_of_fmap in Hin as (? & ? & _). discriminate.
    + intros e Hin. cbn [app] in Hin.
      repeat (apply elem_of_cons in Hin as [Hin|Hin]; [discriminate|]).
      apply list_elem_of_fmap in Hin as (? & ? & _). discriminate.
Qed.

End QueryHandlerFacts.

(** X19. The query handler never raises and leaves the session as it is.
    When the engine cannot be constructed it shows one error message and
    neither searches nor calls the chat model. Otherwise it runs [query]
    on the stored index and names and writes the result string of [query]
    as the answer, whatever that string is: a failed search or a failed
    model call is shown as answer text, not as an error message. *)
Theorem query_handler_writes_the_result_of_query :
  forall (P : Platform) (Score : Type) (services : Services Score)
         (user_query : str) (s : SessionState Score),
    exists t : list ui_event,
      handle_query services user_query s = (t, s, Ret tt)
      /\ (forall e,
            svc_new_engine services = Raise e ->
            t = [StSpinner (lit "Retrieving relevant candidates...");
                 NewRAGEngine;
                 StError (CROSS_MARK ++ lit " Error processing query: " ++ e)])
      /\ (forall engine store,
            svc_new_engine services = Ret engine ->
            SessionManager.get_vectorstore s = Some store ->
            exists tq r rendered,
              query engine user_query store
                (SessionManager.get_applicant_names s) = (tq, Ret r)
              /\ render_results (result r) (source_documents r) s
                 = (rendered, s, Ret tt)
              /\ t = [StSpinner (lit "Retrieving relevant candidates...");
                      NewRAGEngine] ++ map Core tq ++ rendered
              /\ StWrite (result r) ∈ t
              /\ forall message, StError message ∉ t).
Proof.
  intros P Score services q s.
  unfold handle_query, UIComponents.render_loading_spinner,
    UIComponents.show_error_message, ui_try, ui_emit, ui_call, ui_core,
    ui_read, mbind, UiComp_bind.
  destruct (svc_new_engine services) as [engine|e] eqn:Hengine.
  - destruct (query_returns engine q
                (default none_store (SessionManager.get_vectorstore s))
                (SessionManager.get_applicant_names s)) as (tq & r & Hquery).
    rewrite Hquery. cbn [trace result_of fst snd].
    destruct (render_results_runs (result r) (source_documents r) s)
      as (rendered & Hrender & Hwrite & Hnoerr & Hnocore).
    rewrite Hrender. eexists. split; [reflexivity|].
    split; [by intros e'|].
    intros engine' store [= <-] Hstore. rewrite Hstore in Hquery.
    cbn [default] in Hquery. exists tq, r, rendered.
    split_and!; [done | done | done | |].
    + cbn [app]. do 2 right. apply elem_of_app. by right.
    + intros m Hin. cbn [app] in Hin.
      repeat (apply elem_of_cons in Hin as [Hin|Hin]; [discriminate|]).
      apply elem_of_app in Hin as [Hin|Hin]; [|by apply (Hnoerr m)].
      apply list_elem_of_fmap in Hin as (? & ? & _). discriminate.
  - eexists. split; [reflexivity|]. split.
    + by intros e' [= <-].
    + by intros engine store.
Qed.

(** ** src/rag_engine.py: what the router and query never do *)

(** X20. The router never raises and never calls the chat model; it makes
    at most one search call; and every document it returns is either the
    synthetic count document or one of the documents the store ranked for
    the query: it never makes up another document. *)
Theorem router_searches_at_most_once_and_invents_nothing :
  forall (P : Platform) (Score : Type) (self : RAGEngine) (q : str)
         (vectorstore : FAISS Score) (applicant_names : list str),
    exists (t : list event) (docs : list Document),
      _build_context_from_query self q vectorstore applicant_names
      = (t, Ret docs)
      /\ (forall prompt, LlmInvoke prompt ∉ t)
      /\ length (filter (fun e => is_search e) t) <= 1
      /\ (docs = [count_doc applicant_names] /\ t = []
          \/ (forall doc, doc ∈ docs ->
                doc ∈ map fst (search_answer
                                 (similarity_search_with_score vectorstore
                                    q 100)))
             /\ is_count_query q = false
          \/ docs = search_answer (get_relevant_documents vectorstore q 20)
             /\ is_count_query q = false).
Proof.
  intros P Score self q vectorstore names.
  destruct (is_count_query q) eqn:Hcount.
  - exists [], [count_doc names]. split_and!.
    + unfold _build_context_from_query. by rewrite Hcount.
    + intros prompt. apply not_elem_of_nil.
    + rewrite filter_nil. simpl. lia.
    + by left.
  - assert (Hcases :
      (exists N, is_applicant_specific q names = Some N /\ N <> [])
      \/ (is_applicant_specific q names = None
          \/ is_applicant_specific q names = Some [])).
    { destruct (is_applicant_specific q names) as [[|c N]|];
        [right; by right | left; by eexists | right; by left]. }
    destruct Hcases as [(N & Hmatch & Hne) | Hmatch].
    + rewrite (router_person_specific self q vectorstore names N) by done.
      destruct (similarity_search_with_score vectorstore q 100)
        as [ranked|e]; eexists _, _; (split; [reflexivity|]).
      * split_and!.
        -- intros prompt Hin.
           apply list_elem_of_singleton in Hin. discriminate.
        -- rewrite ?filter_cons, ?filter_nil.
           repeat case_decide; simpl in *; try done; lia.
        -- right; left. split; [|done]. intros doc Hdoc.
           eapply sublist_subseteq; [|exact Hdoc].
           apply filter_documents_by_applicant_ranked.
      * split_and!.
        -- intros prompt Hin.
           repeat (apply elem_of_cons in Hin as [Hin|Hin]; [discriminate|]).
           by apply elem_of_nil in Hin.
        -- rewrite ?filter_cons, ?filter_nil.
           repeat case_decide; simpl in *; try done; lia.
        -- right; left. split; [|done]. intros doc Hdoc.
           by apply elem_of_nil in Hdoc.
    + rewrite (router_general self q vectorstore names) by done.
      destruct (get_relevant_documents vectorstore q 20) as [docs|e];
        eexists _, _; (split; [reflexivity|]).
      * split_and!.
        -- intros prompt Hin.
           apply list_elem_of_singleton in Hin. discriminate.
        -- rewrite ?filter_cons, ?filter_nil.
           repeat case_decide; simpl in *; try done; lia.
        -- right; right. by split.
      * split_and!.
        -- intros prompt Hin.
           repeat (apply elem_of_cons in Hin as [Hin|Hin]; [discriminate|]).
           by apply elem_of_nil in Hin.
        -- rewrite ?filter_cons, ?filter_nil.
           repeat case_decide; simpl in *; try done; lia.
        -- right; right. by split.
Qed.

Lemma occurs_in_trans (a b c : str) :
  occurs_in a b -> occurs_in b c -> occurs_in a c.
Proof.
  intros (p & q & ->) (p' & q' & ->).
  exists (p' ++ p), (q ++ q'). by rewrite <- !app_assoc.
Qed.

Lemma format_prompt_holds_both (context question : str) :
  occurs_in context (format_prompt context question)
  /\ occurs_in question (format_prompt context question).
Proof.
  unfold format_prompt. split.
  - apply (occurs_in_trans _ (lit "Context: " ++ context)).
    + apply occurs_in_app_r, occurs_in_self.
    + apply join_occurs. do 3 right. by left.
  - apply (occurs_in_trans _ (lit "Question: " ++ question)).
    + apply occurs_in_app_r, occurs_in_self.
    + apply join_occurs. do 5 right. by left.
Qed.

(** X21. Grounding. [query] calls the chat model at most once, and every
    prompt it sends holds the user's question and, for every document the
    router retrieved, the document's full text under its applicant
    label. *)
Theorem every_prompt_holds_the_question_and_the_retrieved_text :
  forall (P : Platform) (Score : Type) (self : RAGEngine) (q : str)
         (vectorstore : FAISS Score) (applicant_names : list str),
    exists docs : list Document,
      result_of (_build_context_from_query self q vectorstore
                   applicant_names) = Ret docs
      /\ length (filter (fun e => is_llm_call e)
                   (trace (query self q vectorstore applicant_names))) <= 1
      /\ forall prompt,
           LlmInvoke prompt ∈ trace (query self q vectorstore applicant_names)
           -> prompt = format_prompt (_build_context_text docs) q
              /\ occurs_in q prompt
              /\ forall doc, doc ∈ docs ->
                   occurs_in
                     (lit "[Applicant: " ++ label doc ++ lit "]" ++ NL
                      ++ page_content doc) prompt.
Proof.
  intros P Score self q vectorstore names.
  destruct (router_returns self q vectorstore names)
    as (t & docs & Hrouter & Hquiet).
  exists docs. rewrite Hrouter. split; [done|].
  rewrite (query_unfold self q vectorstore names t docs Hrouter).
  assert (Hnone : filter (fun e => is_llm_call e) t = []).
  { clear Hrouter. induction t as [|e t IH]; [done|].
    assert (Hrest : forall p, LlmInvoke p ∉ t)
      by (intros p Hin; apply (Hquiet p); by right).
    destruct (is_llm_call e) eqn:He.
    - destruct e; try discriminate. exfalso. eapply Hquiet. by left.
    - rewrite filter_cons_False by (rewrite He; exact id). by apply IH. }
  destruct docs as [|doc docs]; cbn [trace fst].
  - split; [rewrite Hnone; simpl; lia|].
    intros prompt Hin. by apply Hquiet in Hin.
  - cbv zeta. cbn [trace fst]. split.
    + rewrite filter_app, Hnone, filter_cons_True, filter_nil by done.
      simpl. lia.
    + intros prompt Hin. apply elem_of_app in Hin as [Hin|Hin];
        [by apply Hquiet in Hin|].
      apply list_elem_of_singleton in Hin. injection Hin as ->.
      destruct (format_prompt_holds_both
                  (_build_context_text (doc :: docs)) q) as [Hctx Hq].
      split; [done|]. split; [done|]. intros d Hd.
      apply (occurs_in_trans _ (_build_context_text (doc :: docs)));
        [|done].
      unfold _build_context_text. apply join_occurs.
      apply list_elem_of_fmap. by exists d.
Qed.
